(** * The [conan] Sphinx theme package: [_themes/conan/__init__.py]

    The module consists of two version constants, the inert plugin hook
    [setup] and the path provider [get_html_theme_path], whose body is
    [os.path.abspath(os.path.dirname(os.path.dirname(__file__)))].

    The development embeds
    - the [str] methods that [posixpath] relies on (module [Str]),
    - [posixpath.isabs], [join], [dirname], [normpath] and [abspath]
      (module [posixpath]), transcribed from CPython's [Lib/posixpath.py],
    - the module itself (module [conan]), in a small state-and-exception
      monad over the process state, of which the only part the code reads is
      the working directory ([os.getcwd()]).

    Paths are POSIX paths, [os.path] is [posixpath]; characters are bytes. *)

From Stdlib Require Import String Ascii List Bool Arith ZArith Lia.
Import ListNotations.
Open Scope string_scope.

(** ** Python [str] methods *)

Module Str.

(** [s.startswith(pre)] *)
Definition startswith (s pre : string) : bool := String.prefix pre s.

(** [s.endswith(suf)]: [suf] is [s] or a suffix of the tail of [s]. *)
Fixpoint endswith (s suf : string) : bool :=
  (s =? suf) ||
  match s with
  | EmptyString => false
  | String _ s' => endswith s' suf
  end.

(** [s * n] *)
Fixpoint mul (s : string) (n : nat) : string :=
  match n with
  | O => EmptyString
  | S n' => s ++ mul s n'
  end.

(** [s.rfind(c)] for a one-character [c]: the highest index of [c] in [s],
    or [-1]. *)
Fixpoint rfind (s : string) (c : ascii) : Z :=
  match s with
  | EmptyString => (-1)%Z
  | String a s' =>
      let r := rfind s' c in
      if (0 <=? r)%Z then (r + 1)%Z
      else if Ascii.eqb a c then 0%Z else (-1)%Z
  end.

(** [s[:i]]; a negative [i] counts from the end, as Python slices do. *)
Definition slice_to (s : string) (i : Z) : string :=
  let n := Z.of_nat (String.length s) in
  let j := if (i <? 0)%Z then Z.max 0 (n + i) else i in
  String.substring 0 (Z.to_nat j) s.

(** [s.rstrip(c)] for a one-character [c]. *)
Fixpoint rstrip (s : string) (c : ascii) : string :=
  match s with
  | EmptyString => EmptyString
  | String a s' =>
      match rstrip s' c with
      | EmptyString => if Ascii.eqb a c then EmptyString else String a EmptyString
      | r => String a r
      end
  end.

(** [s.split(c)] for a one-character separator: never the empty list. *)
Fixpoint split (s : string) (c : ascii) : list string :=
  match s with
  | EmptyString => [EmptyString]
  | String a s' =>
      if Ascii.eqb a c then EmptyString :: split s' c
      else match split s' c with
           | x :: xs => String a x :: xs
           | [] => [String a EmptyString]
           end
  end.

(** [sep.join(comps)] *)
Definition join (sep : string) (comps : list string) : string :=
  String.concat sep comps.

(** [c in s] *)
Fixpoint has_char (s : string) (c : ascii) : bool :=
  match s with
  | EmptyString => false
  | String a s' => Ascii.eqb a c || has_char s' c
  end.

(** [sub in s] *)
Fixpoint contains (s sub : string) : bool :=
  String.prefix sub s ||
  match s with
  | EmptyString => false
  | String _ s' => contains s' sub
  end.

(** [s] consists of the character [c] only. *)
Fixpoint all_char (s : string) (c : ascii) : bool :=
  match s with
  | EmptyString => true
  | String a s' => Ascii.eqb a c && all_char s' c
  end.

Definition one (c : ascii) : string := String c EmptyString.

End Str.

(** ** [posixpath] *)

Module posixpath.

Definition sepc : ascii := "/"%char.
Definition sep : string := "/".
Definition empty : string := "".
Definition dot : string := ".".
Definition dotdot : string := "..".

(** [isabs(s)]: [s.startswith(sep)]. *)
Definition isabs (s : string) : bool := Str.startswith s sep.

(** One turn of the loop of [join(a, *p)]:
<<
    for b in map(os.fspath, p):
        if b.startswith(sep):
            path = b
        elif not path or path.endswith(sep):
            path += b
        else:
            path += sep + b
>> *)
Definition join_step (path b : string) : string :=
  if Str.startswith b sep then b
  else if (path =? empty) || Str.endswith path sep then path ++ b
  else path ++ sep ++ b.

(** [join(a, *p)]: [path = a], the loop over [p], [return path]. *)
Definition join (a : string) (p : list string) : string :=
  fold_left join_step p a.

(** [dirname(p)]:
<<
    i = p.rfind(sep) + 1
    head = p[:i]
    if head and head != sep*len(head):
        head = head.rstrip(sep)
    return head
>> *)
Definition dirname (p : string) : string :=
  let i := (Str.rfind p sepc + 1)%Z in
  let head := Str.slice_to p i in
  if negb (head =? empty) && negb (head =? Str.mul sep (String.length head))
  then Str.rstrip head sepc
  else head.

(** [initial_slashes] of [normpath]: 0, 1 or 2.
<<
    initial_slashes = path.startswith(sep)
    if (initial_slashes and
        path.startswith(sep*2) and not path.startswith(sep*3)):
        initial_slashes = 2
>> *)
Definition initial_slashes (path : string) : nat :=
  if Str.startswith path sep then
    if Str.startswith path (Str.mul sep 2) && negb (Str.startswith path (Str.mul sep 3))
    then 2 else 1
  else 0.

Definition is_nil {A} (l : list A) : bool :=
  match l with [] => true | _ => false end.

(** The body of the [for comp in comps] loop of [normpath]; [new_comps] grows
    and shrinks at its end.
<<
        if comp in (empty, dot):
            continue
        if (comp != dotdot or (not initial_slashes and not new_comps) or
             (new_comps and new_comps[-1] == dotdot)):
            new_comps.append(comp)
        elif new_comps:
            new_comps.pop()
>> *)
Definition normpath_step (slashes : nat) (new_comps : list string) (comp : string)
  : list string :=
  if (comp =? empty) || (comp =? dot) then new_comps
  else if negb (comp =? dotdot)
          || ((slashes =? 0)%nat && is_nil new_comps)
          || (negb (is_nil new_comps) && (last new_comps empty =? dotdot))
  then new_comps ++ [comp]
  else if negb (is_nil new_comps) then removelast new_comps
  else new_comps.

(** [normpath(path)]:
<<
    if path == empty:
        return dot
    initial_slashes = ...
    comps = path.split(sep)
    new_comps = []
    for comp in comps: ...
    comps = new_comps
    path = sep.join(comps)
    if initial_slashes:
        path = sep*initial_slashes + path
    return path or dot
>> *)
Definition normpath (path : string) : string :=
  if path =? empty then dot
  else
    let slashes := initial_slashes path in
    let comps := fold_left (normpath_step slashes) (Str.split path sepc) [] in
    let path' := Str.join sep comps in
    let path' := if (slashes =? 0)%nat then path' else Str.mul sep slashes ++ path' in
    if path' =? empty then dot else path'.

End posixpath.

(** ** Python effects: exceptions and the process state *)

Module py.

Inductive exn : Type :=
| NameError (name : string)
| FileNotFoundError.

Inductive result (A : Type) : Type :=
| Ok (a : A)
| Raise (e : exn).
Arguments Ok {A} a.
Arguments Raise {A} e.

(** A computation reads and may change the process state, and either
    returns a value or raises. *)
Definition M (World A : Type) : Type := World -> result A * World.

Definition ret {World A} (a : A) : M World A := fun w => (Ok a, w).

Definition raise {World A} (e : exn) : M World A := fun w => (Raise e, w).

Definition bind {World A B} (m : M World A) (k : A -> M World B) : M World B :=
  fun w =>
    match m w with
    | (Ok a, w') => k a w'
    | (Raise e, w') => (Raise e, w')
    end.

(** Reading a module global that the loader may have left unset. *)
Definition load_global {World A} (name : string) (v : option A) : M World A :=
  match v with
  | Some a => ret a
  | None => raise (NameError name)
  end.

(** The values [setup] can be handed and can return. *)
Inductive object : Type :=
| PyNone
| PyStr (s : string)
| PyInt (n : Z)
| PyRef (address : nat).

End py.

Notation "x <- m ;; k" := (py.bind m (fun x => k))
  (at level 61, m at next level, right associativity).

(** What the module reads of the process it runs in: the working directory
    as the operating system reports it, [None] when it cannot be determined
    (the directory has been removed), in which case [os.getcwd()] raises
    [FileNotFoundError]. *)
Class Process (World : Type) : Type := {
  getcwd : World -> option string
}.

Module os.

Definition getcwd {World} `{Process World} : py.M World string :=
  fun w =>
    match getcwd w with
    | Some cwd => (py.Ok cwd, w)
    | None => (py.Raise py.FileNotFoundError, w)
    end.

(** [os.path.abspath(path)], from [posixpath]: the working directory is
    asked for only when [path] is relative.
<<
    if not isabs(path):
        cwd = os.getcwd()
        path = join(cwd, path)
    return normpath(path)
>> *)
Definition abspath {World} `{Process World} (path : string) : py.M World string :=
  if negb (posixpath.isabs path) then
    cwd <- getcwd ;;
    py.ret (posixpath.normpath (posixpath.join cwd [path]))
  else
    py.ret (posixpath.normpath path).

End os.

(** ** The module [_themes/conan/__init__.py] *)

Module conan.

Definition __version__ : string := "0.2.0".
Definition __version_full__ : string := __version__.

Section Functions.
Context {World : Type} `{Process World}.

(** [def setup(app): pass] *)
Definition setup (app : py.object) : py.M World py.object :=
  py.ret py.PyNone.

(** [def get_html_theme_path()]; [__file__] is the module global set by the
    loader, [None] when the loader set none.
<<
    cur_dir = os.path.abspath(os.path.dirname(os.path.dirname(__file__)))
    return [cur_dir]
>> *)
Definition get_html_theme_path (__file__ : option string) : py.M World (list string) :=
  file <- py.load_global "__file__" __file__ ;;
  cur_dir <- os.abspath (posixpath.dirname (posixpath.dirname file)) ;;
  py.ret [cur_dir].

End Functions.

(** *** The module's namespace

    The top-level statements of the file in their order, and the names they
    bind when the module is executed. *)

Inductive stmt : Type :=
| Docstring (text : string)
| Import (module asname : string)
| AssignStr (target value : string)
| AssignName (target source : string)
| Def (name : string).

Inductive binding : Type :=
| BStr (s : string)
| BModule (name : string)
| BFunction (name : string).

Definition namespace : Type := list (string * binding).

Fixpoint lookup (ns : namespace) (name : string) : option binding :=
  match ns with
  | [] => None
  | (n, b) :: rest => if n =? name then Some b else lookup rest name
  end.

Fixpoint store (ns : namespace) (name : string) (b : binding) : namespace :=
  match ns with
  | [] => [(name, b)]
  | (n, b') :: rest =>
      if n =? name then (n, b) :: rest else (n, b') :: store rest name b
  end.

Definition exec (ns : namespace) (s : stmt) : py.result namespace :=
  match s with
  | Docstring text => py.Ok (store ns "__doc__" (BStr text))
  | Import module asname => py.Ok (store ns asname (BModule module))
  | AssignStr target value => py.Ok (store ns target (BStr value))
  | AssignName target source =>
      match lookup ns source with
      | Some b => py.Ok (store ns target b)
      | None => py.Raise (py.NameError source)
      end
  | Def name => py.Ok (store ns name (BFunction name))
  end.

Fixpoint exec_all (body : list stmt) (ns : namespace) : py.result namespace :=
  match body with
  | [] => py.Ok ns
  | s :: rest =>
      match exec ns s with
      | py.Ok ns' => exec_all rest ns'
      | py.Raise e => py.Raise e
      end
  end.

Definition body : list stmt :=
  [ Docstring "Sphinx ReadTheDocs theme.

From https://github.com/ryan-roemer/sphinx-bootstrap-theme.

";
    Import "os" "os";
    Import "xml.etree.ElementTree" "ET";
    AssignStr "__version__" "0.2.0";
    AssignName "__version_full__" "__version__";
    Def "setup";
    Def "get_html_theme_path" ].

(** The names bound once the module has been imported. *)
Definition globals : py.result namespace := exec_all body [].

(** The bindings that have [version] in their name. *)
Definition version_bindings (ns : namespace) : namespace :=
  filter (fun nb => Str.contains (fst nb) "version") ns.

End conan.

(** ** Notions used in the statements *)

(** A path component: a name without separator. *)
Definition no_sep (s : string) : bool := negb (Str.has_char s posixpath.sepc).

(** The path that [path] stands for in a process whose working directory
    is [cwd]. *)
Definition full (cwd path : string) : string :=
  if posixpath.isabs path then path else posixpath.join cwd [path].

(** What [os.path.abspath(path)] returns in a process whose working
    directory is [cwd]. *)
Definition abspath_from (cwd path : string) : string :=
  posixpath.normpath
    (if posixpath.isabs path then path else posixpath.join cwd [path]).

(** Following the spec's words, "the parent directory of the directory
    containing the current module, as an absolute path": the module's
    location is its [__file__] made absolute under the working directory
    [cwd0] it was loaded under; the directory containing it is the [dirname]
    of that, and the parent the [dirname] of that again. *)
Definition two_levels_up (cwd0 file : string) : string :=
  posixpath.dirname (posixpath.dirname (abspath_from cwd0 file)).

(** The path with [n] leading separators whose components are [names]. *)
Definition normal_form (n : nat) (names : list string) : string :=
  Str.mul posixpath.sep n ++ Str.join posixpath.sep names.

(** A concrete process state, for running the module. *)
Record proc : Type := {
  proc_cwd : option string;
  proc_environ : list (string * string)
}.

#[export] Instance proc_Process : Process proc := {| getcwd := proc_cwd |}.

Definition at_cwd (d : string) : proc :=
  {| proc_cwd := Some d; proc_environ := [] |}.

(** A process whose working directory has been removed under it. *)
Definition cwd_removed : proc := {| proc_cwd := None; proc_environ := [] |}.

(** *** The disk

    A disk is a tree of directories and files without links.  A path is
    resolved component by component, as [path_resolution(7)] describes it:
    every component, the empty one and [.] included, is looked up in a
    directory; [..] leads to the parent, and to the root at the root. *)

Module disk.

#[warnings="-register-all"] Inductive node : Type :=
| File
| Dir (entries : list (string * node)).

Fixpoint entry (name : string) (entries : list (string * node)) : option node :=
  match entries with
  | [] => None
  | (n, x) :: rest => if n =? name then Some x else entry name rest
  end.

(** The node that [names] lead to, one directory entry at a time. *)
Fixpoint find (n : node) (names : list string) : option node :=
  match names with
  | [] => Some n
  | name :: rest =>
      match n with
      | File => None
      | Dir entries =>
          match entry name entries with
          | Some m => find m rest
          | None => None
          end
      end
  end.

Definition is_dir (root : node) (names : list string) : bool :=
  match find root names with
  | Some (Dir _) => true
  | _ => false
  end.

(** One component of a path, from the place [names] below the root. *)
Definition walk_step (root : node) (names : list string) (comp : string)
  : option (list string) :=
  if is_dir root names then
    if (comp =? "") || (comp =? ".") then Some names
    else if comp =? ".." then Some (removelast names)
    else match find root (names ++ [comp])%list with
         | Some _ => Some (names ++ [comp])%list
         | None => None
         end
  else None.

Fixpoint walk (root : node) (comps : list string) (names : list string)
  : option (list string) :=
  match comps with
  | [] => Some names
  | comp :: rest =>
      match walk_step root names comp with
      | Some names' => walk root rest names'
      | None => None
      end
  end.

(** The place an absolute path names, if it names any. *)
Definition resolve (root : node) (path : string) : option (list string) :=
  walk root (Str.split path posixpath.sepc) [].

(** The place [path] names for a process with working directory [cwd]: a
    relative path is resolved from [cwd], the empty path names nothing. *)
Definition lookup (root : node) (cwd path : string) : option (list string) :=
  if path =? "" then None
  else resolve root (if posixpath.isabs path then path else posixpath.join cwd [path]).

Definition exists_on_disk (root : node) (cwd path : string) : bool :=
  match lookup root cwd path with
  | Some _ => true
  | None => false
  end.

Definition is_directory (root : node) (cwd path : string) : bool :=
  match lookup root cwd path with
  | Some names => is_dir root names
  | None => false
  end.

(** The components that name a directory entry: neither empty, nor [.] or
    [..], and free of separators. *)
Definition is_name (comp : string) : bool :=
  negb ((comp =? "") || (comp =? ".") || (comp =? ".."))
  && negb (Str.has_char comp posixpath.sepc).

(** A disk with the theme installed under [/x/y/_themes]. *)
Definition installed : node :=
  Dir [("x", Dir [("y", Dir [("_themes",
         Dir [("conan", Dir [("__init__.py", File)])])])]);
       ("tmp", Dir [])].

End disk.

(** Lists of names. *)
Definition names_only (s : list string) : Prop :=
  Forall (fun c => disk.is_name c = true) s.

(** ** Running the code *)

Example dirname_of_module_file :
  posixpath.dirname "/x/y/_themes/conan/__init__.py" = "/x/y/_themes/conan".
Proof. reflexivity. Qed.
Example dirname_below_two_slashes : posixpath.dirname "//a" = "//".
Proof. reflexivity. Qed.
Example dirname_strips_separators : posixpath.dirname "a//b" = "a".
Proof. reflexivity. Qed.
Example dirname_of_bare_name : posixpath.dirname "b" = "".
Proof. reflexivity. Qed.
Example normpath_collapses : posixpath.normpath "/a/./b/../c//" = "/a/c".
Proof. reflexivity. Qed.
Example normpath_two_slashes : posixpath.normpath "//a/.." = "//".
Proof. reflexivity. Qed.
Example normpath_three_slashes : posixpath.normpath "///a" = "/a".
Proof. reflexivity. Qed.
Example normpath_relative : posixpath.normpath "a/../../b" = "../b".
Proof. reflexivity. Qed.
Example join_adds_separator : posixpath.join "/a" ["b"] = "/a/b".
Proof. reflexivity. Qed.
Example join_keeps_separator : posixpath.join "/a/" ["b"] = "/a/b".
Proof. reflexivity. Qed.
Example join_restarts_at_absolute : posixpath.join "/a" ["/b"] = "/b".
Proof. reflexivity. Qed.
Example run_absolute_file :
  conan.get_html_theme_path (Some "/x/y/_themes/conan/__init__.py") (at_cwd "/tmp")
  = (py.Ok ["/x/y/_themes"], at_cwd "/tmp").
Proof. reflexivity. Qed.
Example run_relative_file :
  conan.get_html_theme_path (Some "_themes/conan/__init__.py") (at_cwd "/tmp")
  = (py.Ok ["/tmp/_themes"], at_cwd "/tmp").
Proof. reflexivity. Qed.
Example run_package_in_cwd :
  conan.get_html_theme_path (Some "conan/__init__.py") (at_cwd "/x/y/_themes/")
  = (py.Ok ["/x/y/_themes"], at_cwd "/x/y/_themes/").
Proof. reflexivity. Qed.
Example run_without_file :
  conan.get_html_theme_path None (at_cwd "/tmp")
  = (py.Raise (py.NameError "__file__"), at_cwd "/tmp").
Proof. reflexivity. Qed.

Example run_relative_file_cwd_removed :
  conan.get_html_theme_path (Some "conan/__init__.py") cwd_removed
  = (py.Raise py.FileNotFoundError, cwd_removed).
Proof. reflexivity. Qed.
Example run_absolute_file_cwd_removed :
  conan.get_html_theme_path (Some "/x/y/_themes/conan/__init__.py") cwd_removed
  = (py.Ok ["/x/y/_themes"], cwd_removed).
Proof. reflexivity. Qed.
Example run_bare_file :
  conan.get_html_theme_path (Some "__init__.py") (at_cwd "/x/y/_themes/conan")
  = (py.Ok ["/x/y/_themes/conan"], at_cwd "/x/y/_themes/conan").
Proof. reflexivity. Qed.
Example two_levels_up_of_bare_file :
  two_levels_up "/x/y/_themes/conan" "__init__.py" = "/x/y/_themes".
Proof. reflexivity. Qed.
Example module_file_on_disk :
  disk.lookup disk.installed "/tmp" "/x/y/_themes/conan/__init__.py"
  = Some ["x"; "y"; "_themes"; "conan"; "__init__.py"].
Proof. reflexivity. Qed.
Example module_file_from_cwd :
  disk.lookup disk.installed "/x/y" "_themes/./conan/../conan/__init__.py"
  = Some ["x"; "y"; "_themes"; "conan"; "__init__.py"].
Proof. reflexivity. Qed.
Example file_is_no_directory :
  disk.lookup disk.installed "/" "/x/y/_themes/conan/__init__.py/" = None.
Proof. reflexivity. Qed.
Example theme_path_on_disk :
  disk.is_directory disk.installed "/tmp" "/x/y/_themes" = true.
Proof. reflexivity. Qed.

(** ** Facts about the [str] methods *)

Module StrFacts.
Import Str.

Lemma append_assoc (s t u : string) : (s ++ t) ++ u = s ++ t ++ u.
Proof. induction s; simpl; congruence. Qed.

Lemma length_append (s t : string) :
  String.length (s ++ t) = String.length s + String.length t.
Proof. induction s; simpl; congruence. Qed.

Lemma all_char_mul (c : ascii) (n : nat) : all_char (mul (one c) n) c = true.
Proof. induction n; simpl; [reflexivity | now rewrite Ascii.eqb_refl]. Qed.

Lemma all_char_app (s t : string) (c : ascii) :
  all_char (s ++ t) c = all_char s c && all_char t c.
Proof. induction s; simpl; [reflexivity | rewrite IHs, andb_assoc; reflexivity]. Qed.

Lemma has_char_app (s t : string) (c : ascii) :
  has_char (s ++ t) c = has_char s c || has_char t c.
Proof. induction s; simpl; [reflexivity | rewrite IHs, orb_assoc; reflexivity]. Qed.

(** [head != sep * len(head)] tests whether [head] has another character. *)
Lemma eqb_mul_length (s : string) (c : ascii) :
  (s =? mul (one c) (String.length s)) = all_char s c.
Proof.
  induction s as [|a s IH]; simpl; [reflexivity|].
  rewrite IH. destruct (Ascii.eqb a c); reflexivity.
Qed.

(** *** [rfind] and the slice up to it *)

Lemma rfind_lower (s : string) (c : ascii) : (-1 <= rfind s c)%Z.
Proof.
  induction s as [|a s IH]; simpl; [lia|].
  destruct (0 <=? rfind s c)%Z eqn:E; [apply Z.leb_le in E; lia|].
  destruct (Ascii.eqb a c); lia.
Qed.

Lemma rfind_absent (s : string) (c : ascii) :
  has_char s c = false -> rfind s c = (-1)%Z.
Proof.
  induction s as [|a s IH]; simpl; [reflexivity|].
  intros Hc. apply orb_false_iff in Hc as [Ha Hs].
  rewrite (IH Hs), Ha. reflexivity.
Qed.

Lemma rfind_last (x b : string) (c : ascii) :
  has_char b c = false ->
  rfind (x ++ String c b) c = Z.of_nat (String.length x).
Proof.
  intros Hb. induction x as [|a x IH]; simpl.
  - rewrite (rfind_absent _ _ Hb). simpl. now rewrite Ascii.eqb_refl.
  - rewrite IH. destruct (0 <=? Z.of_nat (String.length x))%Z eqn:E.
    + lia.
    + apply Z.leb_gt in E. lia.
Qed.

Lemma substring_app_length (x y : string) :
  String.substring 0 (String.length x) (x ++ y) = x.
Proof.
  induction x as [|a x IH]; simpl.
  - destruct y; reflexivity.
  - now rewrite IH.
Qed.

Lemma slice_to_app (x y : string) :
  slice_to (x ++ y) (Z.of_nat (String.length x)) = x.
Proof.
  unfold slice_to.
  destruct (Z.of_nat (String.length x) <? 0)%Z eqn:E; [apply Z.ltb_lt in E; lia|].
  rewrite Nat2Z.id. apply substring_app_length.
Qed.

(** The part of [x + c + b] up to and including its last [c]. *)
Lemma head_last (x b : string) (c : ascii) :
  has_char b c = false ->
  slice_to (x ++ String c b) (rfind (x ++ String c b) c + 1) = x ++ one c.
Proof.
  intros Hb. rewrite (rfind_last _ _ _ Hb).
  replace (x ++ String c b) with ((x ++ one c) ++ b)
    by (rewrite append_assoc; reflexivity).
  replace (Z.of_nat (String.length x) + 1)%Z
    with (Z.of_nat (String.length (x ++ one c)))
    by (rewrite length_append; simpl; lia).
  apply slice_to_app.
Qed.

Lemma head_absent (b : string) (c : ascii) :
  has_char b c = false -> slice_to b (rfind b c + 1) = "".
Proof.
  intros Hb. rewrite (rfind_absent _ _ Hb). unfold slice_to. simpl.
  destruct b; reflexivity.
Qed.

(** *** [rstrip] *)

Lemma rstrip_all (s : string) (c : ascii) :
  all_char s c = true -> rstrip s c = "".
Proof.
  induction s as [|a s IH]; simpl; [reflexivity|].
  intros Hs. apply andb_true_iff in Hs as [Ha Hs].
  now rewrite (IH Hs), Ha.
Qed.

Lemma rstrip_app_mul (s : string) (c : ascii) (k : nat) :
  rstrip (s ++ mul (one c) k) c = rstrip s c.
Proof.
  induction s as [|a s IH]; simpl.
  - apply rstrip_all, all_char_mul.
  - now rewrite IH.
Qed.

Lemma rstrip_decomp (s : string) (c : ascii) :
  exists k, s = rstrip s c ++ mul (one c) k.
Proof.
  induction s as [|a s [k IH]]; simpl.
  - exists 0. reflexivity.
  - destruct (rstrip s c) as [|r0 r] eqn:E.
    + destruct (Ascii.eqb_spec a c) as [->|Hne].
      * exists (S k). simpl in *. congruence.
      * exists k. simpl in *. congruence.
    + exists k. simpl in *. congruence.
Qed.

Lemma rstrip_nonempty (s : string) (c : ascii) :
  all_char s c = false -> rstrip s c <> "".
Proof.
  induction s as [|a s IH]; simpl; [discriminate|].
  intros Hs. destruct (rstrip s c) eqn:E; [|discriminate].
  destruct (Ascii.eqb a c) eqn:Ea; [|discriminate].
  simpl in Hs. now apply IH in Hs.
Qed.

(** *** [endswith] and [startswith] with the separator *)

Lemma endswith_absent (s : string) (c : ascii) :
  has_char s c = false -> endswith s (one c) = false.
Proof.
  induction s as [|a s IH]; simpl; [reflexivity|].
  intros Hs. apply orb_false_iff in Hs as [Ha Hs].
  rewrite Ha, (IH Hs). reflexivity.
Qed.

Lemma endswith_app (x s : string) (c : ascii) :
  s <> "" -> endswith (x ++ s) (one c) = endswith s (one c).
Proof.
  intros Hs. induction x as [|a x IH]; simpl; [reflexivity|].
  rewrite IH. destruct (x ++ s) eqn:E.
  - destruct x; simpl in E; [contradiction | discriminate].
  - destruct (Ascii.eqb a c); reflexivity.
Qed.

Lemma endswith_inv (s : string) (c : ascii) :
  endswith s (one c) = true -> exists x, s = x ++ one c.
Proof.
  induction s as [|a s IH]; simpl; [discriminate|].
  intros Hs. apply orb_true_iff in Hs as [Hs|Hs].
  - destruct (Ascii.eqb_spec a c) as [->|]; [|discriminate].
    destruct s; [|discriminate]. exists "". reflexivity.
  - destruct (IH Hs) as [x ->]. exists (String a x). reflexivity.
Qed.

Lemma endswith_all (s : string) (c : ascii) :
  s <> "" -> all_char s c = true -> endswith s (one c) = true.
Proof.
  induction s as [|a s IH]; simpl; [contradiction|].
  intros _ Hs. apply andb_true_iff in Hs as [Ha Hs]. rewrite Ha.
  destruct s as [|b s]; [reflexivity|].
  rewrite IH by (exact Hs || discriminate). apply orb_true_r.
Qed.

Lemma rstrip_id (s : string) (c : ascii) :
  endswith s (one c) = false -> rstrip s c = s.
Proof.
  induction s as [|a s IH]; simpl; [reflexivity|].
  intros Hs. apply orb_false_iff in Hs as [Ha Hs].
  rewrite (IH Hs). destruct s as [|b s]; [|reflexivity].
  destruct (Ascii.eqb a c); [discriminate | reflexivity].
Qed.

Lemma startswith_absent (s : string) (c : ascii) :
  has_char s c = false -> startswith s (one c) = false.
Proof.
  destruct s as [|a s]; simpl; [reflexivity|].
  intros Hs. apply orb_false_iff in Hs as [Ha _].
  destruct (Ascii.ascii_dec c a) as [->|]; [|reflexivity].
  now rewrite Ascii.eqb_refl in Ha.
Qed.

(** Whether [s] starts with [n] separators is settled within [s] as soon
    as [s] has another character. *)
Lemma startswith_app_mul (s t : string) (c : ascii) (n : nat) :
  all_char s c = false ->
  startswith (s ++ t) (mul (one c) n) = startswith s (mul (one c) n).
Proof.
  revert n. induction s as [|a s IH]; simpl; [discriminate|].
  intros [|n] Hs; [reflexivity|].
  change (mul (one c) (S n)) with (String c (mul (one c) n)).
  unfold startswith in *. simpl.
  destruct (Ascii.ascii_dec c a) as [->|]; [|reflexivity].
  rewrite Ascii.eqb_refl in Hs. simpl in Hs. now apply IH.
Qed.

Lemma startswith_app (s t : string) (c : ascii) :
  s <> "" -> startswith (s ++ t) (one c) = startswith s (one c).
Proof.
  destruct s as [|a s]; [contradiction|]. intros _.
  unfold startswith, one. simpl.
  destruct (Ascii.ascii_dec c a); [|reflexivity].
  destruct s; [destruct t|]; reflexivity.
Qed.

Lemma startswith_cons (s : string) (c : ascii) :
  startswith (String c s) (one c) = true.
Proof.
  unfold startswith, one. simpl.
  destruct (Ascii.ascii_dec c c); [now destruct s | contradiction].
Qed.

Lemma startswith_cons_other (s : string) (a c : ascii) :
  a <> c -> startswith (String a s) (one c) = false.
Proof.
  intros Ha. unfold startswith, one. simpl.
  destruct (Ascii.ascii_dec c a); [congruence | reflexivity].
Qed.

Lemma startswith_inv (s : string) (c : ascii) :
  startswith s (one c) = true -> exists s', s = String c s'.
Proof.
  destruct s as [|a s]; [discriminate|]. unfold startswith, one. simpl.
  destruct (Ascii.ascii_dec c a) as [->|]; [|discriminate].
  intros _. now exists s.
Qed.

(** The head that [dirname] cuts out of a path with a leading [c] keeps
    that [c], and so does what [rstrip] leaves of it. *)
Lemma head_first (s : string) (c : ascii) :
  exists h, slice_to (String c s) (rfind (String c s) c + 1) = String c h.
Proof.
  pose proof (rfind_lower s c) as Hl. simpl rfind. rewrite Ascii.eqb_refl.
  set (i := ((if (0 <=? rfind s c)%Z then rfind s c + 1 else 0) + 1)%Z).
  assert (Hi : (1 <= i)%Z) by (subst i; destruct (0 <=? rfind s c)%Z; lia).
  unfold slice_to. destruct (i <? 0)%Z eqn:E; [apply Z.ltb_lt in E; lia|].
  destruct (Z.to_nat i) as [|m] eqn:Em; [lia|].
  simpl. eauto.
Qed.

Lemma rstrip_first (s : string) (a c : ascii) :
  all_char (String a s) c = false ->
  exists r, rstrip (String a s) c = String a r.
Proof.
  intros Hall. simpl. destruct (rstrip s c) as [|r0 r] eqn:E; [|eauto].
  destruct (Ascii.eqb a c) eqn:Ea; [|eauto].
  simpl in Hall. rewrite Ea in Hall. simpl in Hall.
  now apply rstrip_nonempty in Hall.
Qed.

(** *** [split] and [join] *)

Lemma split_nonempty (s : string) (c : ascii) : split s c <> [].
Proof.
  destruct s as [|a s]; simpl; [discriminate|].
  destruct (Ascii.eqb a c); [discriminate|].
  destruct (split s c); discriminate.
Qed.

Lemma split_mul (c : ascii) (k : nat) :
  split (mul (one c) k) c = "" :: repeat "" k.
Proof.
  induction k as [|k IH]; [reflexivity|].
  change (mul (one c) (S k)) with (String c (mul (one c) k)).
  simpl. now rewrite Ascii.eqb_refl, IH.
Qed.

Lemma split_app_mul (s : string) (c : ascii) (k : nat) :
  split (s ++ mul (one c) k) c = (split s c ++ repeat "" k)%list.
Proof.
  induction s as [|a s IH]; simpl.
  - apply split_mul.
  - rewrite IH. destruct (Ascii.eqb a c); [reflexivity|].
    pose proof (split_nonempty s c) as Hne.
    destruct (split s c); [contradiction | reflexivity].
Qed.

Lemma split_cons_sep (s : string) (c : ascii) :
  split (String c s) c = "" :: split s c.
Proof. simpl. now rewrite Ascii.eqb_refl. Qed.

Lemma split_app_sep (x y : string) (c : ascii) :
  split (x ++ String c y) c = (split x c ++ split y c)%list.
Proof.
  induction x as [|a x IH]; simpl.
  - now rewrite Ascii.eqb_refl.
  - rewrite IH. destruct (Ascii.eqb a c); [reflexivity|].
    pose proof (split_nonempty x c) as Hne.
    destruct (split x c); [contradiction | reflexivity].
Qed.

Lemma split_absent (s : string) (c : ascii) :
  has_char s c = false -> split s c = [s].
Proof.
  induction s as [|a s IH]; simpl; [reflexivity|].
  intros Hs. apply orb_false_iff in Hs as [Ha Hs].
  now rewrite Ha, (IH Hs).
Qed.

Lemma split_no_sep (s : string) (c : ascii) :
  Forall (fun x => has_char x c = false) (split s c).
Proof.
  induction s as [|a s IH]; simpl.
  - constructor; [reflexivity | constructor].
  - destruct (Ascii.eqb a c) eqn:Ea.
    + constructor; [reflexivity | exact IH].
    + destruct (split s c) as [|x xs]; inversion IH; subst.
      * constructor; [simpl; now rewrite Ea | constructor].
      * constructor; [simpl; now rewrite Ea | assumption].
Qed.

Lemma split_join (l : list string) (c : ascii) :
  l <> [] -> Forall (fun x => has_char x c = false) l ->
  split (join (one c) l) c = l.
Proof.
  induction l as [|x l IH]; [contradiction|]. intros _ Hl.
  inversion Hl as [|? ? Hx Hl']; subst.
  destruct l as [|y l].
  - simpl. now apply split_absent.
  - change (join (one c) (x :: y :: l)) with (x ++ String c (join (one c) (y :: l))).
    rewrite split_app_sep, (split_absent _ _ Hx), IH by (discriminate || assumption).
    reflexivity.
Qed.

(** A string either has no [c] or falls into the part before its last [c]
    and the part after it. *)
Lemma last_sep_decomp (s : string) (c : ascii) :
  has_char s c = false \/
  exists x b, s = x ++ String c b /\ has_char b c = false.
Proof.
  induction s as [|a s IH]; [now left|].
  destruct IH as [Hs | (x & b & -> & Hb)].
  - destruct (Ascii.eqb_spec a c) as [->|Hne].
    + right. exists "", s. now split.
    + left. simpl. rewrite Hs. now apply Ascii.eqb_neq in Hne as ->.
  - right. exists (String a x), b. now split.
Qed.

End StrFacts.

(** ** Facts about [posixpath] *)

Module PathFacts.
Import Str StrFacts posixpath.

Lemma no_sep_absent (s : string) : no_sep s = true -> has_char s sepc = false.
Proof. unfold no_sep. now destruct (has_char s sepc). Qed.

Lemma isabs_nonempty (p : string) : isabs p = true -> p <> "".
Proof. intros Hp ->. discriminate. Qed.

(** *** [join] with one relative component *)

Lemma join_relative (a b : string) :
  isabs b = false ->
  join a [b] = if (a =? "") || endswith a sep then a ++ b else a ++ sep ++ b.
Proof.
  intros Hb. unfold join, join_step. simpl.
  unfold isabs in Hb. now rewrite Hb.
Qed.

Lemma isabs_no_sep (b : string) : no_sep b = true -> isabs b = false.
Proof. intros Hb. apply (startswith_absent b sepc), no_sep_absent, Hb. Qed.

(** Joining a name to a directory gives a path that neither is empty nor
    ends in a separator. *)
Lemma join_name_shape (d a : string) :
  a <> "" -> no_sep a = true ->
  join d [a] <> "" /\ endswith (join d [a]) sep = false.
Proof.
  intros Ha Hs. rewrite (join_relative _ _ (isabs_no_sep _ Hs)).
  assert (He : endswith a sep = false)
    by apply (endswith_absent a sepc), no_sep_absent, Hs.
  destruct ((d =? "") || endswith d sep).
  - split.
    + destruct d; simpl; [assumption | discriminate].
    + change sep with (one sepc). now rewrite endswith_app.
  - split.
    + destruct d; discriminate.
    + rewrite <- append_assoc. change sep with (one sepc).
      now rewrite endswith_app.
Qed.

(** *** [dirname] *)

(** The directory of a file [b] joined to the path [p] of its directory is
    [p] again. *)
Lemma dirname_join_file (p b : string) :
  p <> "" -> endswith p sep = false -> no_sep b = true ->
  dirname (join p [b]) = p.
Proof.
  intros Hp He Hb. rewrite (join_relative _ _ (isabs_no_sep _ Hb)), He.
  change sep with (one sepc) in He.
  destruct (String.eqb_spec p "") as [|_]; [contradiction|]. simpl orb. cbv iota.
  unfold dirname. change (p ++ sep ++ b) with (p ++ String sepc b).
  rewrite (head_last _ _ _ (no_sep_absent _ Hb)).
  change sep with (one sepc). rewrite eqb_mul_length, all_char_app.
  assert (Hall : all_char p sepc = false).
  { destruct (all_char p sepc) eqn:E; [|reflexivity].
    rewrite (endswith_all p sepc Hp E) in He. discriminate. }
  rewrite Hall. simpl andb.
  destruct (String.eqb_spec (p ++ one sepc) empty) as [E|_].
  - destruct p; discriminate.
  - simpl. change (one sepc) with (mul (one sepc) 1).
    rewrite rstrip_app_mul. now apply rstrip_id.
Qed.

(** The directory of a name [a] joined to [d] is [d] without its trailing
    separators, or [d] itself when it has nothing but separators. *)
Lemma dirname_join_name (d a : string) :
  a <> "" -> no_sep a = true ->
  dirname (join d [a]) = if all_char d sepc then d else rstrip d sepc.
Proof.
  intros Ha Hs. pose proof (no_sep_absent _ Hs) as Hc.
  rewrite (join_relative _ _ (isabs_no_sep _ Hs)).
  destruct (String.eqb_spec d "") as [->|Hd].
  - simpl. unfold dirname. now rewrite (head_absent _ _ Hc).
  - simpl orb. destruct (endswith d sep) eqn:He.
    + destruct (endswith_inv d sepc He) as [x ->].
      unfold dirname. rewrite append_assoc. change (one sepc ++ a) with (String sepc a).
      rewrite (head_last _ _ _ Hc).
      change sep with (one sepc). rewrite eqb_mul_length.
      destruct (String.eqb_spec (x ++ one sepc) empty) as [E|_].
      * destruct x; discriminate.
      * simpl negb. simpl andb. now destruct (all_char (x ++ one sepc) sepc).
    + unfold dirname. change (d ++ sep ++ a) with (d ++ String sepc a).
      rewrite (head_last _ _ _ Hc).
      change sep with (one sepc) in *. rewrite eqb_mul_length, all_char_app.
      assert (Hall : all_char d sepc = false).
      { destruct (all_char d sepc) eqn:E; [|reflexivity].
        rewrite (endswith_all d sepc Hd E) in He. discriminate. }
      rewrite Hall. simpl andb.
      destruct (String.eqb_spec (d ++ one sepc) empty) as [E|_].
      * destruct d; discriminate.
      * simpl. change (one sepc) with (mul (one sepc) 1).
        now rewrite rstrip_app_mul.
Qed.

(** [dirname] keeps an absolute path absolute. *)
Lemma dirname_isabs (p : string) : isabs p = true -> isabs (dirname p) = true.
Proof.
  intros Hp. destruct (startswith_inv p sepc Hp) as [p' ->].
  unfold dirname. destruct (head_first p' sepc) as [h ->].
  change sep with (one sepc). rewrite eqb_mul_length.
  destruct (all_char (String sepc h) sepc) eqn:Hall.
  - rewrite andb_false_r. apply (startswith_cons h sepc).
  - simpl negb. rewrite andb_true_r. simpl negb. cbv iota.
    destruct (rstrip_first h sepc sepc Hall) as [r ->].
    apply (startswith_cons r sepc).
Qed.

Lemma isabs_cons_other (a : ascii) (s : string) :
  a <> sepc -> isabs (String a s) = false.
Proof.
  intros Ha. now apply (startswith_cons_other s a sepc).
Qed.

(** [dirname] keeps a relative path relative. *)
Lemma dirname_relative (p : string) : isabs p = false -> isabs (dirname p) = false.
Proof.
  intros Hp. destruct (last_sep_decomp p sepc) as [Hc | (x & b & -> & Hb)].
  - unfold dirname. now rewrite (head_absent _ _ Hc).
  - unfold dirname. rewrite (head_last _ _ _ Hb).
    destruct x as [|a x].
    + exfalso. change (isabs (String sepc b) = false) in Hp.
      unfold isabs in Hp. change sep with (one sepc) in Hp.
      rewrite startswith_cons in Hp. discriminate.
    + assert (Ha : a <> sepc).
      { intros ->. change (isabs (String sepc (x ++ String sepc b)) = false) in Hp.
        unfold isabs in Hp. change sep with (one sepc) in Hp.
        rewrite startswith_cons in Hp. discriminate. }
      change sep with (one sepc). rewrite eqb_mul_length.
      assert (Hall : all_char (String a x ++ one sepc) sepc = false).
      { simpl. now apply Ascii.eqb_neq in Ha as ->. }
      rewrite Hall. simpl. simpl in Hall.
      destruct (rstrip_first _ _ _ Hall) as [r Er]. simpl in Er. rewrite Er.
      now apply isabs_cons_other.
Qed.

(** The components of [dirname(p)] are those of [p] without the last one,
    up to empty components at the end. *)
Lemma dirname_split (p : string) :
  exists xs last k,
    split p sepc = (xs ++ [last])%list /\
    (split (dirname p) sepc ++ repeat "" k = xs ++ [""])%list.
Proof.
  destruct (last_sep_decomp p sepc) as [Hc | (x & b & -> & Hb)].
  - exists [], p, 0. split; [now apply split_absent|].
    unfold dirname. now rewrite (head_absent _ _ Hc).
  - exists (split x sepc), b.
    assert (Hhead : split (x ++ one sepc) sepc = (split x sepc ++ [""])%list)
      by apply split_app_sep.
    unfold dirname. rewrite (head_last _ _ _ Hb).
    change sep with (one sepc). rewrite eqb_mul_length.
    destruct (negb (x ++ one sepc =? empty) && negb (all_char (x ++ one sepc) sepc)).
    + destruct (rstrip_decomp (x ++ one sepc) sepc) as [k Ek]. exists k.
      split; [rewrite split_app_sep, (split_absent _ _ Hb); reflexivity|].
      now rewrite <- split_app_mul, <- Ek.
    + exists 0. split; [rewrite split_app_sep, (split_absent _ _ Hb); reflexivity|].
      rewrite Hhead. apply app_nil_r.
Qed.

(** *** [normpath] *)

Lemma fold_normpath_step_empties (n k : nat) (acc : list string) :
  fold_left (normpath_step n) (repeat "" k) acc = acc.
Proof. induction k as [|k IH]; simpl; [reflexivity | exact IH]. Qed.

Lemma initial_slashes_app_seps (s : string) (k : nat) :
  all_char s sepc = false ->
  initial_slashes (s ++ mul sep k) = initial_slashes s.
Proof.
  intros Hs. unfold initial_slashes.
  rewrite (startswith_app_mul s (mul sep k) sepc 1 Hs : 
             startswith (s ++ mul sep k) sep = startswith s sep).
  rewrite (startswith_app_mul s (mul sep k) sepc 2 Hs :
             startswith (s ++ mul sep k) (mul sep 2) = startswith s (mul sep 2)).
  rewrite (startswith_app_mul s (mul sep k) sepc 3 Hs :
             startswith (s ++ mul sep k) (mul sep 3) = startswith s (mul sep 3)).
  reflexivity.
Qed.

(** Trailing separators do not change what a path normalises to, unless the
    path has nothing else. *)
Lemma normpath_app_seps (s : string) (k : nat) :
  all_char s sepc = false ->
  normpath (s ++ mul sep k) = normpath s.
Proof.
  intros Hs. unfold normpath.
  rewrite (initial_slashes_app_seps _ _ Hs).
  rewrite (split_app_mul s sepc k
           : split (s ++ mul sep k) sepc = (split s sepc ++ repeat "" k)%list).
  rewrite fold_left_app, fold_normpath_step_empties.
  destruct s as [|a s]; [discriminate|]. reflexivity.
Qed.

Lemma initial_slashes_isabs (p : string) :
  isabs p = true -> initial_slashes p = 1 \/ initial_slashes p = 2.
Proof.
  unfold isabs, initial_slashes. intros ->.
  destruct (_ && _); auto.
Qed.

(** Normalising keeps an absolute path absolute. *)
Lemma normpath_isabs (p : string) : isabs p = true -> isabs (normpath p) = true.
Proof.
  intros Hp. unfold normpath.
  destruct (startswith_inv p sepc Hp) as [p' E]. rewrite E at 1. simpl String.eqb.
  cbv iota.
  destruct (initial_slashes_isabs p Hp) as [-> | ->]; simpl Nat.eqb; cbv iota;
    set (q := Str.join sep _); simpl; apply (startswith_cons _ sepc).
Qed.

(** A path joined to an absolute directory is absolute. *)
Lemma join_isabs (cwd p : string) : isabs cwd = true -> isabs (join cwd [p]) = true.
Proof.
  intros Hc. unfold join, join_step. simpl.
  destruct (startswith p sep) eqn:Hp; [exact Hp|].
  destruct (startswith_inv cwd sepc Hc) as [c' ->].
  destruct (_ || _); apply (startswith_cons _ sepc).
Qed.

(** *** [abspath] as a function of the working directory *)

Lemma abspath_from_isabs_any (cwd cwd' path : string) :
  isabs path = true -> abspath_from cwd path = abspath_from cwd' path.
Proof. unfold abspath_from. now intros ->. Qed.

(** [abspath] returns when the path is absolute or the working directory
    can be determined, and leaves the process as it was. *)
Lemma abspath_run {World} `{Process World} (path cwd : string) (w : World) :
  isabs path = true \/ getcwd w = Some cwd ->
  os.abspath path w = (py.Ok (abspath_from cwd path), w).
Proof.
  unfold os.abspath, abspath_from, py.bind, os.getcwd, py.ret.
  destruct (isabs path); simpl; [reflexivity|].
  intros [Habs | ->]; [discriminate | reflexivity].
Qed.

(** It raises when the path is relative and the working directory is gone. *)
Lemma abspath_run_gone {World} `{Process World} (path : string) (w : World) :
  isabs path = false -> getcwd w = None ->
  os.abspath path w = (py.Raise py.FileNotFoundError, w).
Proof.
  intros Hrel Hgone. unfold os.abspath, py.bind, os.getcwd.
  rewrite Hrel. simpl. now rewrite Hgone.
Qed.

Lemma abspath_from_isabs (cwd path : string) :
  isabs path = true -> abspath_from cwd path = normpath path.
Proof. unfold abspath_from. now intros ->. Qed.

(** The result of [abspath] is absolute as soon as the path or the working
    directory is. *)
Lemma abspath_from_absolute (cwd path : string) :
  isabs path = true \/ isabs cwd = true ->
  isabs (abspath_from cwd path) = true.
Proof.
  intros Habs. unfold abspath_from. apply normpath_isabs.
  destruct (isabs path) eqn:Hp; [exact Hp|].
  destruct Habs as [Habs|Habs]; [discriminate|]. now apply join_isabs.
Qed.

(** Trailing separators of a path with other characters do not show in its
    absolute form. *)
Lemma abspath_from_rstrip (cwd d : string) :
  all_char d sepc = false ->
  abspath_from cwd (rstrip d sepc) = abspath_from cwd d.
Proof.
  intros Hd. destruct (rstrip_decomp d sepc) as [k Ek].
  pose proof (rstrip_nonempty d sepc Hd) as Hr.
  set (r := rstrip d sepc) in *.
  assert (Hall : all_char r sepc = false).
  { rewrite Ek, all_char_app, all_char_mul, andb_true_r in Hd. exact Hd. }
  clearbody r. subst d. unfold abspath_from.
  assert (Hi : isabs (r ++ mul (one sepc) k) = isabs r)
    by (apply (startswith_app r _ sepc), Hr).
  rewrite Hi. destruct (isabs r) eqn:Ha.
  - symmetry. now apply normpath_app_seps.
  - rewrite !join_relative by congruence. symmetry.
    destruct ((cwd =? "") || endswith cwd sep).
    + rewrite <- append_assoc. apply normpath_app_seps.
      now rewrite all_char_app, Hall, andb_false_r.
    + rewrite <- !append_assoc. apply normpath_app_seps.
      now rewrite all_char_app, Hall, andb_false_r.
Qed.

End PathFacts.

(** ** Facts about path resolution on a disk *)

Module DiskFacts.
Import Str StrFacts posixpath PathFacts disk.

Section Disk.
Variable root : node.

Lemma find_app (n : node) (xs ys : list string) :
  find n (xs ++ ys) =
  match find n xs with
  | Some m => find m ys
  | None => None
  end.
Proof.
  revert n. induction xs as [|x xs IH]; intros n; simpl; [reflexivity|].
  destruct n as [|entries]; [reflexivity|].
  destruct (entry x entries); [apply IH | reflexivity].
Qed.

(** Whatever lies below a place lies below a directory. *)
Lemma find_below (xs ys : list string) :
  ys <> [] -> find root (xs ++ ys) <> None -> is_dir root xs = true.
Proof.
  intros Hys. rewrite find_app. unfold is_dir.
  destruct (find root xs) as [[|entries]|]; try congruence.
  destruct ys; [contradiction | simpl; congruence].
Qed.

Lemma find_prefix (xs ys : list string) :
  find root (xs ++ ys) <> None -> find root xs <> None.
Proof. rewrite find_app. destruct (find root xs); congruence. Qed.

Lemma find_removelast (xs : list string) :
  find root xs <> None -> find root (removelast xs) <> None.
Proof.
  destruct xs as [|x xs] using rev_ind; [trivial|].
  rewrite removelast_last. apply find_prefix.
Qed.

Lemma walk_app (xs ys names : list string) :
  walk root (xs ++ ys) names =
  match walk root xs names with
  | Some names' => walk root ys names'
  | None => None
  end.
Proof.
  revert names. induction xs as [|x xs IH]; intros names; simpl; [reflexivity|].
  destruct (walk_step root names x); [apply IH | reflexivity].
Qed.

Lemma walk_step_empty (names : list string) :
  walk_step root names "" = if is_dir root names then Some names else None.
Proof. reflexivity. Qed.

(** Empty components lead nowhere else. *)
Lemma walk_empties (k : nat) (names s : list string) :
  walk root (repeat "" k) names = Some s -> s = names.
Proof.
  induction k as [|k IH]; simpl; [congruence|].
  rewrite walk_step_empty. destruct (is_dir root names); [exact IH | discriminate].
Qed.

(** A walk that takes a step starts in a directory. *)
Lemma walk_from_dir (comps names s : list string) :
  comps <> [] -> walk root comps names = Some s -> is_dir root names = true.
Proof.
  destruct comps as [|c comps]; [contradiction|]. intros _. simpl.
  unfold walk_step. destruct (is_dir root names); [reflexivity | discriminate].
Qed.

Lemma walk_snoc (xs : list string) (c : string) (names s : list string) :
  walk root (xs ++ [c]) names = Some s ->
  exists s', walk root xs names = Some s' /\ is_dir root s' = true.
Proof.
  rewrite walk_app. destruct (walk root xs names) as [s'|]; [|discriminate].
  intros Hw. exists s'. split; [reflexivity|].
  now apply (walk_from_dir [c] s' s).
Qed.

(** If a path leads somewhere, its [dirname] leads to a directory. *)
Lemma walk_dirname (p : string) (names s : list string) :
  walk root (split p sepc) names = Some s ->
  exists s', walk root (split (dirname p) sepc) names = Some s' /\
             is_dir root s' = true.
Proof.
  destruct (dirname_split p) as (xs & c & k & -> & Hd). intros Hw.
  destruct (walk_snoc _ _ _ _ Hw) as (s' & Hxs & Hdir).
  assert (Hw' : walk root (xs ++ [""]) names = Some s').
  { rewrite walk_app, Hxs. simpl. now rewrite walk_step_empty, Hdir. }
  rewrite <- Hd, walk_app in Hw'.
  destruct (walk root (split (dirname p) sepc) names) as [s2|]; [|discriminate].
  apply walk_empties in Hw'. subst s2. now exists s'.
Qed.

(** *** [normpath] against the disk *)

(** Along a walk that succeeds, [normpath] keeps, for an absolute path, the
    very list of names the walk arrives at. *)
Lemma walk_normpath (n : nat) (comps names s : list string) :
  n <> 0 ->
  Forall (fun c => has_char c sepc = false) comps ->
  Forall (fun c => is_name c = true) names -> find root names <> None ->
  walk root comps names = Some s ->
  fold_left (normpath_step n) comps names = s /\
  Forall (fun c => is_name c = true) s /\ find root s <> None.
Proof.
  intros Hn. revert names.
  induction comps as [|c comps IH]; intros names Hcs Hnames Hfind; simpl.
  - intros [= <-]. auto.
  - inversion Hcs as [|? ? Hc Hcs']; subst.
    unfold walk_step. destruct (is_dir root names); [|discriminate].
    unfold normpath_step, empty, dot, dotdot.
    destruct ((c =? "") || (c =? ".")) eqn:Especial; [now apply IH|].
    destruct (c =? "..") eqn:Edd.
    + assert (Hlast : negb (is_nil names) && (last names "" =? "..") = false).
      { destruct names as [|x names] using rev_ind; [reflexivity|].
        rewrite last_last. apply Forall_app in Hnames as [_ Hx].
        inversion Hx as [|? ? Hx' _]; subst. unfold is_name in Hx'.
        destruct (x =? ".."); [|apply andb_false_r].
        rewrite !orb_true_r in Hx'. discriminate. }
      rewrite Hlast. destruct n; [contradiction|]. simpl.
      intros Hw. replace (if negb (is_nil names) then removelast names else names)
        with (removelast names) by now destruct names.
      apply IH; auto using find_removelast.
      destruct names as [|x names] using rev_ind; [constructor|].
      rewrite removelast_last. now apply Forall_app in Hnames as [? _].
    + simpl. destruct (find root (names ++ [c])) eqn:Ef; [|discriminate].
      apply IH; [assumption | | congruence].
      apply Forall_app. split; [assumption|]. constructor; [|constructor].
      unfold is_name. apply orb_false_iff in Especial as [-> ->].
      now rewrite Edd, Hc.
Qed.

(** The names of a place, taken as a path, lead to that place. *)
Lemma walk_names (s2 s1 : list string) :
  Forall (fun c => is_name c = true) s2 ->
  find root (s1 ++ s2) <> None ->
  walk root s2 s1 = Some (s1 ++ s2)%list.
Proof.
  revert s1. induction s2 as [|c s2 IH]; intros s1 Hn Hf; simpl.
  - now rewrite app_nil_r.
  - inversion Hn as [|? ? Hc Hn']; subst.
    unfold walk_step. rewrite (find_below s1 (c :: s2)) by (discriminate || assumption).
    unfold is_name in Hc. apply andb_true_iff in Hc as [Hc _].
    apply negb_true_iff in Hc. apply orb_false_iff in Hc as [Hc ->].
    rewrite Hc.
    replace (s1 ++ c :: s2)%list with ((s1 ++ [c]) ++ s2)%list in *
      by (rewrite <- List.app_assoc; reflexivity).
    pose proof (find_prefix _ _ Hf) as Hf'.
    destruct (find root (s1 ++ [c])); [|contradiction].
    now apply IH.
Qed.

Lemma normpath_absolute_form (p : string) :
  isabs p = true ->
  (initial_slashes p = 1 \/ initial_slashes p = 2) /\
  normpath p
  = mul sep (initial_slashes p)
    ++ Str.join sep (fold_left (normpath_step (initial_slashes p)) (split p sepc) []).
Proof.
  intros Hp. pose proof (initial_slashes_isabs p Hp) as Hn. split; [exact Hn|].
  unfold normpath.
  destruct (startswith_inv p sepc Hp) as [p' E]. rewrite E at 1.
  simpl String.eqb. cbv iota.
  destruct Hn as [-> | ->]; reflexivity.
Qed.

(** The path of a place resolves to it, with one leading separator or two. *)
Lemma resolve_names (n : nat) (s : list string) :
  n = 1 \/ n = 2 ->
  is_dir root [] = true ->
  Forall (fun c => is_name c = true) s -> find root s <> None ->
  resolve root (mul sep n ++ Str.join sep s) = Some s.
Proof.
  intros Hn Hroot Hs Hf.
  assert (Hw : walk root (split (Str.join sep s) sepc) [] = Some s).
  { destruct s as [|c s].
    - simpl. now rewrite walk_step_empty, Hroot.
    - change sep with (one sepc). rewrite split_join.
      + now apply (walk_names (c :: s) []).
      + discriminate.
      + eapply Forall_impl; [|exact Hs]. intros x Hx. unfold is_name in Hx.
        apply andb_true_iff in Hx as [_ Hx]. now apply negb_true_iff in Hx. }
  unfold resolve.
  destruct Hn as [-> | ->].
  - change (mul sep 1 ++ Str.join sep s) with (String sepc (Str.join sep s)).
    rewrite split_cons_sep. cbn [walk]. now rewrite walk_step_empty, Hroot.
  - change (mul sep 2 ++ Str.join sep s)
      with (String sepc (String sepc (Str.join sep s))).
    rewrite !split_cons_sep. cbn [walk]. rewrite walk_step_empty, Hroot.
    cbn [walk]. now rewrite walk_step_empty, Hroot.
Qed.

(** Normalising an absolute path that resolves does not change the place
    it resolves to. *)
Lemma resolve_normpath (p : string) (s : list string) :
  isabs p = true -> resolve root p = Some s ->
  resolve root (normpath p) = Some s.
Proof.
  intros Hp Hr. destruct (normpath_absolute_form p Hp) as [Hn ->].
  unfold resolve in Hr.
  pose proof (walk_from_dir _ _ _ (split_nonempty p sepc) Hr) as Hroot.
  destruct (walk_normpath (initial_slashes p) (split p sepc) [] s) as (-> & Hs & Hf);
    auto using split_no_sep.
  - destruct Hn as [-> | ->]; discriminate.
  - discriminate.
  - now apply resolve_names.
Qed.

(** *** Resolution from a working directory *)

Lemma join_cwd_form (cwd : string) :
  isabs cwd = true ->
  exists c0, forall g, isabs g = false -> join cwd [g] = c0 ++ String sepc g.
Proof.
  intros Hc. pose proof (isabs_nonempty _ Hc) as Hne.
  destruct (endswith cwd sep) eqn:He.
  - destruct (endswith_inv cwd sepc He) as [c0 E]. exists c0. intros g Hg.
    rewrite (join_relative _ _ Hg), He, orb_true_r. subst cwd.
    now rewrite append_assoc.
  - exists cwd. intros g Hg. rewrite (join_relative _ _ Hg), He.
    destruct (String.eqb_spec cwd ""); [contradiction | reflexivity].
Qed.

(** If a path resolves from [cwd], its [dirname] resolves from [cwd] to a
    directory. *)
Lemma resolve_dirname (cwd f : string) (s : list string) :
  isabs cwd = true -> resolve root (full cwd f) = Some s ->
  exists s', resolve root (full cwd (dirname f)) = Some s' /\
             is_dir root s' = true.
Proof.
  intros Hc. unfold full. destruct (isabs f) eqn:Hf.
  - rewrite (dirname_isabs _ Hf). apply walk_dirname.
  - rewrite (dirname_relative _ Hf).
    destruct (join_cwd_form cwd Hc) as [c0 Hj].
    rewrite !Hj by auto using dirname_relative.
    unfold resolve. rewrite !split_app_sep, !walk_app.
    destruct (walk root (split c0 sepc) []); [apply walk_dirname | discriminate].
Qed.

Lemma full_isabs (cwd path : string) :
  isabs cwd = true -> isabs (full cwd path) = true.
Proof.
  intros Hc. unfold full. destruct (isabs path) eqn:Hp; [exact Hp|].
  now apply join_isabs.
Qed.

(** Two levels up from a path that resolves, [abspath] names a directory. *)
Lemma abspath_dirname_dirname_is_directory (cwd f : string) :
  isabs cwd = true -> exists_on_disk root cwd f = true ->
  is_directory root cwd (abspath_from cwd (dirname (dirname f))) = true.
Proof.
  intros Hc. unfold exists_on_disk, lookup.
  destruct (f =? ""); [discriminate|]. fold (full cwd f).
  destruct (resolve root (full cwd f)) as [s|] eqn:Hr; [intros _ | discriminate].
  destruct (resolve_dirname _ _ _ Hc Hr) as (s1 & Hr1 & _).
  destruct (resolve_dirname _ _ _ Hc Hr1) as (s2 & Hr2 & Hdir).
  pose proof (full_isabs cwd (dirname (dirname f)) Hc) as Habs.
  apply (resolve_normpath _ _ Habs) in Hr2.
  change (resolve root (abspath_from cwd (dirname (dirname f))) = Some s2) in Hr2.
  assert (Hp : isabs (abspath_from cwd (dirname (dirname f))) = true)
    by (apply abspath_from_absolute; now right).
  unfold is_directory, lookup. rewrite Hp.
  destruct (String.eqb_spec (abspath_from cwd (dirname (dirname f))) "") as [E|_].
  - rewrite E in Hp. discriminate.
  - now rewrite Hr2.
Qed.

End Disk.
End DiskFacts.

(** ** The path provider and the registration hook *)

Section Theme.
Import Str StrFacts posixpath PathFacts.
Context {World : Type} `{Process World}.

(** A call with [__file__] set returns the one-element list of
    [abspath(dirname(dirname(__file__)))] and leaves the process as it was,
    when [__file__] is absolute or the working directory can be determined. *)
Lemma get_html_theme_path_run (file cwd : string) (w : World) :
  isabs file = true \/ getcwd w = Some cwd ->
  conan.get_html_theme_path (Some file) w
  = (py.Ok [abspath_from cwd (dirname (dirname file))], w).
Proof.
  intros Hrun.
  unfold conan.get_html_theme_path, py.load_global, py.bind, py.ret.
  rewrite (abspath_run _ cwd); [reflexivity|].
  destruct Hrun as [Habs | Hcwd]; [left | now right].
  auto using dirname_isabs.
Qed.

(** With a relative [__file__] and the working directory gone, it raises. *)
Lemma get_html_theme_path_run_gone (file : string) (w : World) :
  isabs file = false -> getcwd w = None ->
  conan.get_html_theme_path (Some file) w = (py.Raise py.FileNotFoundError, w).
Proof.
  intros Hrel Hgone.
  unfold conan.get_html_theme_path, py.load_global, py.bind, py.ret.
  rewrite abspath_run_gone; auto using dirname_relative.
Qed.

(** No call changes the process state. *)
Lemma get_html_theme_path_state (file : option string) (w : World) :
  snd (conan.get_html_theme_path file w) = w.
Proof.
  destruct file as [f|]; [|reflexivity].
  destruct (isabs f) eqn:Habs.
  - now rewrite (get_html_theme_path_run f "" w) by now left.
  - destruct (getcwd w) as [cwd|] eqn:Hcwd.
    + now rewrite (get_html_theme_path_run f cwd w) by now right.
    + now rewrite get_html_theme_path_run_gone.
Qed.

(** Two directory levels up from the file [b] in the directory [a] in [d]
    is [d], up to what [abspath] makes of it. *)
Lemma dirname_dirname_join (cwd d a b : string) :
  a <> "" -> no_sep a = true -> no_sep b = true ->
  abspath_from cwd (dirname (dirname (join (join d [a]) [b])))
  = abspath_from cwd d.
Proof.
  intros Ha Hsa Hsb.
  destruct (join_name_shape d a Ha Hsa) as [Hne Hend].
  rewrite (dirname_join_file _ _ Hne Hend Hsb), (dirname_join_name _ _ Ha Hsa).
  destruct (all_char d sepc) eqn:Hall; [reflexivity|].
  now apply abspath_from_rstrip.
Qed.

(** C2. With the module file at [/x/y/_themes/conan/__init__], whatever
    its extension, the call returns exactly [["/x/y/_themes"]]. *)
Theorem get_html_theme_path_scenario (ext : string) (w : World) :
  no_sep ext = true ->
  conan.get_html_theme_path (Some ("/x/y/_themes/conan/__init__" ++ ext)) w
  = (py.Ok ["/x/y/_themes"], w).
Proof.
  intros Hext. rewrite (get_html_theme_path_run _ "" w) by now left.
  do 2 f_equal. f_equal.
  change ("/x/y/_themes/conan/__init__" ++ ext)
    with (join (join "/x/y/_themes" ["conan"]) ["__init__" ++ ext]).
  rewrite dirname_dirname_join; [reflexivity | discriminate | reflexivity |].
  unfold no_sep in *. rewrite has_char_app. simpl.
  now destruct (has_char ext sepc).
Qed.


(** How far the result depends on the process: not at all when [__file__]
    is absolute, and through the working directory alone otherwise. *)
Lemma get_html_theme_path_reads (file : string) (w1 w2 : World) :
  isabs file = true \/ getcwd w1 = getcwd w2 ->
  fst (conan.get_html_theme_path (Some file) w1)
  = fst (conan.get_html_theme_path (Some file) w2).
Proof.
  intros Hsame. destruct (isabs file) eqn:Habs.
  - now rewrite !(get_html_theme_path_run file "") by now left.
  - destruct Hsame as [|Hsame]; [discriminate|].
    destruct (getcwd w2) as [cwd|] eqn:Hcwd.
    + now rewrite !(get_html_theme_path_run file cwd) by now right.
    + now rewrite !get_html_theme_path_run_gone.
Qed.

(** C4, amended. Two calls in one process return the same value when
    [__file__] is absolute or the working directory is the same at both. *)
Theorem get_html_theme_path_stable (file : string) (w1 w2 : World) :
  isabs file = true \/ getcwd w1 = getcwd w2 ->
  fst (conan.get_html_theme_path (Some file) w1)
  = fst (conan.get_html_theme_path (Some file) w2).
Proof. apply get_html_theme_path_reads. Qed.

(** C5, amended. With [__file__] defined, and absolute or else with a
    working directory that can be determined, the call raises nothing: it
    returns a list and leaves the process as it was. *)
Theorem get_html_theme_path_no_error (file : string) (w : World) :
  isabs file = true \/ (exists cwd, getcwd w = Some cwd) ->
  exists paths, conan.get_html_theme_path (Some file) w = (py.Ok paths, w).
Proof.
  intros [Habs | [cwd Hcwd]]; eexists.
  - apply (get_html_theme_path_run file ""). now left.
  - apply (get_html_theme_path_run file cwd). now right.
Qed.

(** C6. For every argument, [None] included, [setup] returns [None] and
    raises nothing. *)
Theorem setup_returns_None (app : py.object) (w : World) :
  fst (conan.setup app w) = py.Ok py.PyNone.
Proof. reflexivity. Qed.

(** C7. [setup] does nothing: the process state after the call is the state
    before it, whatever the state consists of. *)
Theorem setup_no_effect (app : py.object) (w : World) :
  snd (conan.setup app w) = w.
Proof. reflexivity. Qed.

(** C8, amended. Neither function changes the process state, and the result
    of [get_html_theme_path] is settled by [__file__] alone when that is
    absolute, and by [__file__] and the working directory otherwise. *)
Theorem functions_pure (app : py.object) (file : option string) (w : World) :
  snd (conan.setup app w) = w /\
  snd (conan.get_html_theme_path file w) = w /\
  forall f w', file = Some f ->
    isabs f = true \/ getcwd w = getcwd w' ->
    fst (conan.get_html_theme_path file w)
    = fst (conan.get_html_theme_path file w').
Proof.
  split; [reflexivity|]. split.
  - apply get_html_theme_path_state.
  - intros f w' -> Hsame. now apply get_html_theme_path_reads.
Qed.

(** C9, amended. On a disk without links, if the module file exists when
    looked up from the working directory the module was loaded under, and
    [__file__] is absolute or the working directory is still that one, the
    single path returned names an existing directory of that disk. *)
Theorem get_html_theme_path_exists
    (root : disk.node) (cwd0 cwd file : string) (w : World) :
  getcwd w = Some cwd -> isabs cwd = true ->
  disk.exists_on_disk root cwd0 file = true ->
  isabs file = true \/ cwd = cwd0 ->
  exists p,
    conan.get_html_theme_path (Some file) w = (py.Ok [p], w) /\
    disk.is_directory root cwd p = true.
Proof.
  intros Hcwd Habs Hfile Hsame. eexists.
  split; [apply (get_html_theme_path_run file cwd); now right|].
  apply DiskFacts.abspath_dirname_dirname_is_directory; [assumption|].
  destruct Hsame as [Hf | ->]; [|assumption].
  unfold disk.exists_on_disk, disk.lookup in *. now rewrite Hf in *.
Qed.

End Theme.

(** C10. The module binds two version constants, both strings:
    [__version_full__] equals [__version__], and both are ['0.2.0']; no
    other name of the imported module has [version] in it. *)
Theorem version_constants :
  conan.__version_full__ = conan.__version__ /\
  conan.__version__ = "0.2.0" /\
  conan.__version_full__ = "0.2.0" /\
  exists ns,
    conan.globals = py.Ok ns /\
    conan.version_bindings ns
    = [("__version__", conan.BStr conan.__version__);
       ("__version_full__", conan.BStr conan.__version_full__)].
Proof.
  repeat split. eexists. split; reflexivity.
Qed.

(** ** The statements at concrete inputs *)

Lemma get_html_theme_path_scenario_witness :
  conan.get_html_theme_path (Some ("/x/y/_themes/conan/__init__" ++ ".py"))
    (at_cwd "/tmp")
  = (py.Ok ["/x/y/_themes"], at_cwd "/tmp").
Proof.
  apply (get_html_theme_path_scenario ".py" (at_cwd "/tmp")). reflexivity.
Defined.


Lemma get_html_theme_path_stable_witness :
  fst (conan.get_html_theme_path (Some "/x/y/_themes/conan/__init__.py") (at_cwd "/a"))
  = fst (conan.get_html_theme_path (Some "/x/y/_themes/conan/__init__.py") (at_cwd "/b")).
Proof.
  apply (get_html_theme_path_stable "/x/y/_themes/conan/__init__.py"
           (at_cwd "/a") (at_cwd "/b")).
  left. reflexivity.
Defined.

Lemma get_html_theme_path_no_error_witness :
  exists paths,
    conan.get_html_theme_path (Some "conan/__init__.py") (at_cwd "/x/y/_themes")
    = (py.Ok paths, at_cwd "/x/y/_themes").
Proof.
  apply (get_html_theme_path_no_error "conan/__init__.py" (at_cwd "/x/y/_themes")).
  right. exists "/x/y/_themes". reflexivity.
Defined.

Lemma functions_pure_witness :
  fst (conan.get_html_theme_path (Some "_themes/conan/__init__.py") (at_cwd "/x/y"))
  = fst (conan.get_html_theme_path (Some "_themes/conan/__init__.py")
           {| proc_cwd := Some "/x/y"; proc_environ := [("HOME", "/root")] |}).
Proof.
  apply (proj2 (proj2 (functions_pure py.PyNone (Some "_themes/conan/__init__.py")
                         (at_cwd "/x/y")))
           "_themes/conan/__init__.py").
  - reflexivity.
  - right. reflexivity.
Defined.

Lemma get_html_theme_path_exists_witness :
  exists p,
    conan.get_html_theme_path (Some "_themes/conan/__init__.py") (at_cwd "/x/y")
    = (py.Ok [p], at_cwd "/x/y") /\
    disk.is_directory disk.installed "/x/y" p = true.
Proof.
  exact (get_html_theme_path_exists disk.installed "/x/y" "/x/y"
           "_themes/conan/__init__.py" (at_cwd "/x/y")
           eq_refl eq_refl eq_refl (or_intror eq_refl)).
Defined.

(** ** Where the working directory shows *)

(** C4 as stated fails: with a relative [__file__], a call made under
    [/a] and a call made under [/b] return different lists. *)
Lemma get_html_theme_path_not_stable :
  ~ (forall (file : string) (w1 w2 : proc),
       fst (conan.get_html_theme_path (Some file) w1)
       = fst (conan.get_html_theme_path (Some file) w2)).
Proof.
  intros Hstable.
  specialize (Hstable "_themes/conan/__init__.py" (at_cwd "/a") (at_cwd "/b")).
  vm_compute in Hstable. discriminate.
Qed.

(** C5 as stated fails: with [__file__] defined but relative, and the
    working directory removed, [os.getcwd()] raises inside [abspath]. *)
Lemma get_html_theme_path_raises :
  ~ (forall (file : string) (w : proc),
       exists paths,
         conan.get_html_theme_path (Some file) w = (py.Ok paths, w)).
Proof.
  intros Hok. destruct (Hok "conan/__init__.py" cwd_removed) as [paths Hrun].
  vm_compute in Hrun. discriminate.
Qed.

(** C8 as stated fails: the working directory is process state other than
    the module's location, and it shows in the result. *)
Lemma functions_read_cwd :
  ~ (forall (app : py.object) (file : option string) (w w' : proc),
       snd (conan.setup app w) = w /\
       snd (conan.get_html_theme_path file w) = w /\
       fst (conan.get_html_theme_path file w)
       = fst (conan.get_html_theme_path file w')).
Proof.
  intros Hpure.
  destruct (Hpure py.PyNone (Some "conan/__init__.py")
              (at_cwd "/srv/docs/_themes") (at_cwd "/tmp")) as (_ & _ & Hsame).
  vm_compute in Hsame. discriminate.
Qed.

(** C9 as stated fails: a module loaded from disk through a relative path
    under [/x/y] answers, once the working directory is [/tmp], with
    [/tmp/_themes], which the disk does not have. *)
Lemma get_html_theme_path_missing_directory :
  ~ (forall (root : disk.node) (cwd0 cwd file : string) (w : proc),
       getcwd w = Some cwd -> posixpath.isabs cwd = true ->
       disk.exists_on_disk root cwd0 file = true ->
       exists p,
         conan.get_html_theme_path (Some file) w = (py.Ok [p], w) /\
         disk.exists_on_disk root cwd p = true).
Proof.
  intros Hexists.
  destruct (Hexists disk.installed "/x/y" "/tmp" "_themes/conan/__init__.py"
              (at_cwd "/tmp") eq_refl eq_refl eq_refl) as (p & Hrun & Hdir).
  vm_compute in Hrun. injection Hrun as <-.
  vm_compute in Hdir. discriminate.
Qed.

(** ** The shape of the returned path *)

Module NormFacts.
Import Str StrFacts posixpath PathFacts.

Lemma startswith_cons_cons (c : ascii) (s t : string) :
  startswith (String c s) (String c t) = startswith s t.
Proof.
  unfold startswith. simpl.
  destruct (Ascii.ascii_dec c c); [reflexivity | contradiction].
Qed.

Lemma startswith_nothing (s : string) : startswith s "" = true.
Proof. now destruct s. Qed.

Lemma is_name_inv (c : string) :
  disk.is_name c = true ->
  (c =? "") = false /\ (c =? ".") = false /\ (c =? "..") = false /\
  has_char c sepc = false.
Proof.
  unfold disk.is_name. intros Hc. apply andb_true_iff in Hc as [Hs Hn].
  apply negb_true_iff in Hs, Hn.
  apply orb_false_iff in Hs as [Hs Hdd]. apply orb_false_iff in Hs as [He Hd].
  auto.
Qed.

Lemma names_only_removelast (s : list string) :
  names_only s -> names_only (removelast s).
Proof.
  unfold names_only. destruct s as [|c s _] using rev_ind; [trivial|].
  rewrite removelast_last. intros Hs. now apply Forall_app in Hs as [? _].
Qed.

Lemma names_only_last (s : list string) :
  names_only s -> (negb (is_nil s) && (last s "" =? "..")) = false.
Proof.
  unfold names_only. destruct s as [|c s _] using rev_ind; [reflexivity|].
  rewrite last_last. intros Hs. apply Forall_app in Hs as [_ Hc].
  inversion Hc as [|? ? Hc' _]; subst.
  destruct (is_name_inv _ Hc') as (_ & _ & -> & _). apply andb_false_r.
Qed.

(** *** What the loop of [normpath] keeps *)

Lemma normpath_step_name (n : nat) (acc : list string) (c : string) :
  disk.is_name c = true -> normpath_step n acc c = (acc ++ [c])%list.
Proof.
  intros Hc. destruct (is_name_inv _ Hc) as (He & Hd & Hdd & _).
  unfold normpath_step, empty, dot, dotdot. now rewrite He, Hd, Hdd.
Qed.

Lemma fold_names (n : nat) (s acc : list string) :
  names_only s -> fold_left (normpath_step n) s acc = (acc ++ s)%list.
Proof.
  revert acc. induction s as [|c s IH]; intros acc Hs; simpl.
  - now rewrite app_nil_r.
  - inversion Hs as [|? ? Hc Hs']; subst.
    rewrite (normpath_step_name _ _ _ Hc), (IH _ Hs'), <- List.app_assoc.
    reflexivity.
Qed.

(** For an absolute path the loop keeps nothing but names. *)
Lemma normpath_step_names (n : nat) (acc : list string) (c : string) :
  n <> 0 -> has_char c sepc = false -> names_only acc ->
  names_only (normpath_step n acc c).
Proof.
  intros Hn Hc Hacc. unfold normpath_step, empty, dot, dotdot.
  destruct ((c =? "") || (c =? ".")) eqn:Eskip; [assumption|].
  destruct (c =? "..") eqn:Edd.
  - rewrite (names_only_last _ Hacc). destruct n; [contradiction|]. simpl.
    destruct (is_nil acc); simpl; [assumption | now apply names_only_removelast].
  - simpl. apply Forall_app. split; [assumption|]. constructor; [|constructor].
    apply orb_false_iff in Eskip as [He Hd].
    unfold disk.is_name. now rewrite He, Hd, Edd, Hc.
Qed.

Lemma fold_normpath_names (n : nat) (comps acc : list string) :
  n <> 0 -> Forall (fun c => has_char c sepc = false) comps ->
  names_only acc -> names_only (fold_left (normpath_step n) comps acc).
Proof.
  intros Hn. revert acc. induction comps as [|c comps IH]; intros acc Hcs Hacc.
  - exact Hacc.
  - inversion Hcs; subst. simpl. apply IH; [assumption|].
    now apply normpath_step_names.
Qed.

(** *** Paths in normal form *)

Lemma join_names_relative (s : list string) :
  names_only s -> startswith (Str.join sep s) sep = false.
Proof.
  destruct s as [|c s]; [reflexivity|]. intros Hs.
  inversion Hs as [|? ? Hc _]; subst.
  destruct (is_name_inv _ Hc) as (He & _ & _ & Hsep).
  assert (Hne : c <> "") by (intros ->; discriminate).
  assert (Hrel : startswith c sep = false) by now apply (startswith_absent c sepc).
  destruct s as [|c' s]; [exact Hrel|].
  change (Str.join sep (c :: c' :: s)) with (c ++ sep ++ Str.join sep (c' :: s)).
  change sep with (one sepc) at 2.
  now rewrite (startswith_app c _ sepc Hne).
Qed.

Lemma join_snoc (s : list string) (c : string) :
  s <> [] -> Str.join sep (s ++ [c]) = Str.join sep s ++ sep ++ c.
Proof.
  induction s as [|x s IH]; [contradiction|]. intros _.
  destruct s as [|y s]; [reflexivity|].
  change (Str.join sep ((x :: y :: s) ++ [c]))
    with (x ++ sep ++ Str.join sep ((y :: s) ++ [c])).
  rewrite IH by discriminate.
  change (Str.join sep (x :: y :: s)) with (x ++ sep ++ Str.join sep (y :: s)).
  now rewrite !append_assoc.
Qed.

Lemma join_names_nonempty (s : list string) :
  s <> [] -> names_only s -> Str.join sep s <> "".
Proof.
  destruct s as [|c s]; [contradiction|]. intros _ Hs.
  inversion Hs as [|? ? Hc _]; subst.
  destruct (is_name_inv _ Hc) as (He & _). 
  destruct c as [|a c]; [discriminate|].
  destruct s; discriminate.
Qed.

Lemma join_names_end (s : list string) :
  s <> [] -> names_only s -> endswith (Str.join sep s) sep = false.
Proof.
  destruct s as [|c s _] using rev_ind; [contradiction|]. intros _ Hs.
  apply Forall_app in Hs as [_ Hc]. inversion Hc as [|? ? Hc' _]; subst.
  destruct (is_name_inv _ Hc') as (He & _ & _ & Hsep).
  assert (Hend : endswith c sep = false) by now apply (endswith_absent c sepc).
  assert (Hne : c <> "") by (intros ->; discriminate).
  destruct s as [|x s]; [exact Hend|].
  rewrite join_snoc by discriminate.
  rewrite <- append_assoc. change sep with (one sepc) at 3.
  now rewrite endswith_app.
Qed.

Lemma split_names (s : list string) :
  names_only s ->
  split (Str.join sep s) sepc = if is_nil s then [""] else s.
Proof.
  intros Hs. destruct s as [|c s]; [reflexivity|].
  apply (split_join (c :: s) sepc); [discriminate|].
  eapply Forall_impl; [|exact Hs]. intros x Hx. now apply is_name_inv in Hx.
Qed.

Lemma fold_split_names (n : nat) (s : list string) :
  names_only s ->
  fold_left (normpath_step n) (split (Str.join sep s) sepc) [] = s.
Proof.
  intros Hs. rewrite (split_names _ Hs). destruct s as [|c s]; [reflexivity|].
  now rewrite fold_names.
Qed.

Lemma initial_slashes_one (j : string) :
  startswith j sep = false -> initial_slashes (String sepc j) = 1.
Proof.
  intros Hrel. unfold initial_slashes.
  rewrite (startswith_cons j sepc : startswith (String sepc j) sep = true).
  rewrite (startswith_cons_cons sepc j sep
           : startswith (String sepc j) (mul sep 2) = startswith j sep).
  now rewrite Hrel.
Qed.

Lemma initial_slashes_two (j : string) :
  startswith j sep = false -> initial_slashes (String sepc (String sepc j)) = 2.
Proof.
  intros Hrel. unfold initial_slashes.
  rewrite (startswith_cons (String sepc j) sepc
           : startswith (String sepc (String sepc j)) sep = true).
  rewrite (eq_trans (startswith_cons_cons sepc (String sepc j) sep)
                    (startswith_cons j sepc)
           : startswith (String sepc (String sepc j)) (mul sep 2) = true).
  rewrite (eq_trans (startswith_cons_cons sepc (String sepc j) (mul sep 2))
                    (startswith_cons_cons sepc j sep)
           : startswith (String sepc (String sepc j)) (mul sep 3) = startswith j sep).
  now rewrite Hrel.
Qed.

Lemma initial_slashes_normal_form (n : nat) (s : list string) :
  n = 1 \/ n = 2 -> names_only s -> initial_slashes (normal_form n s) = n.
Proof.
  intros Hn Hs. pose proof (join_names_relative _ Hs) as Hrel.
  destruct Hn as [-> | ->].
  - now apply initial_slashes_one.
  - now apply initial_slashes_two.
Qed.

(** [normpath] leaves a path in normal form as it is. *)
Lemma normpath_normal_form (n : nat) (s : list string) :
  n = 1 \/ n = 2 -> names_only s -> normpath (normal_form n s) = normal_form n s.
Proof.
  intros Hn Hs. unfold normpath.
  rewrite (initial_slashes_normal_form _ _ Hn Hs).
  assert (Hsplit : fold_left (normpath_step n) (split (normal_form n s) sepc) [] = s).
  { unfold normal_form. destruct Hn as [-> | ->].
    - change (mul sep 1 ++ Str.join sep s) with (String sepc (Str.join sep s)).
      rewrite split_cons_sep. simpl fold_left at 1.
      change (normpath_step 1 [] "") with (@nil string).
      now apply fold_split_names.
    - change (mul sep 2 ++ Str.join sep s)
        with (String sepc (String sepc (Str.join sep s))).
      rewrite !split_cons_sep. simpl fold_left at 1.
      change (normpath_step 2 (normpath_step 2 [] "") "") with (@nil string).
      now apply fold_split_names. }
  rewrite Hsplit. unfold normal_form.
  destruct Hn as [-> | ->]; reflexivity.
Qed.

(** [normpath] brings every absolute path into normal form. *)
Lemma normpath_is_normal (p : string) :
  isabs p = true ->
  exists n s, (n = 1 \/ n = 2) /\ names_only s /\ normpath p = normal_form n s.
Proof.
  intros Hp. destruct (DiskFacts.normpath_absolute_form p Hp) as [Hn E].
  exists (initial_slashes p),
         (fold_left (normpath_step (initial_slashes p)) (split p sepc) []).
  split; [exact Hn|]. split; [|exact E].
  apply fold_normpath_names; [| apply split_no_sep | constructor].
  destruct Hn as [-> | ->]; discriminate.
Qed.

Lemma normal_form_isabs (n : nat) (s : list string) :
  n = 1 \/ n = 2 -> isabs (normal_form n s) = true.
Proof. intros [-> | ->]; apply (startswith_cons _ sepc). Qed.

(** [dirname] takes the last name off a path in normal form, and leaves
    the root as it is. *)
Lemma dirname_normal_form (n : nat) (s : list string) :
  n = 1 \/ n = 2 -> names_only s ->
  dirname (normal_form n s) = normal_form n (removelast s).
Proof.
  intros Hn Hs. destruct s as [|c s _] using rev_ind.
  - destruct Hn as [-> | ->]; reflexivity.
  - rewrite removelast_last.
    pose proof Hs as Hs0. unfold names_only in Hs0.
    apply Forall_app in Hs0 as [Hs' Hc]. inversion Hc as [|? ? Hc' _]; subst.
    destruct (is_name_inv _ Hc') as (_ & _ & _ & Hsep).
    destruct s as [|x s].
    + unfold normal_form, dirname. destruct Hn as [-> | ->].
      * change (mul sep 1 ++ Str.join sep ([] ++ [c])) with ("" ++ String sepc c).
        now rewrite (head_last _ _ _ Hsep).
      * change (mul sep 2 ++ Str.join sep ([] ++ [c]))
          with (one sepc ++ String sepc c).
        now rewrite (head_last _ _ _ Hsep).
    + assert (Hne : x :: s <> []) by discriminate.
      assert (Hend : endswith (normal_form n (x :: s)) sep = false).
      { unfold normal_form. change sep with (one sepc) at 3.
        rewrite endswith_app by now apply join_names_nonempty.
        now apply join_names_end. }
      assert (Hp : normal_form n (x :: s) <> "")
        by (apply isabs_nonempty, normal_form_isabs, Hn).
      assert (Hb : no_sep c = true) by (unfold no_sep; now rewrite Hsep).
      transitivity (dirname (join (normal_form n (x :: s)) [c]));
        [|now apply dirname_join_file].
      f_equal. rewrite (join_relative _ _ (isabs_no_sep _ Hb)), Hend.
      destruct (String.eqb_spec (normal_form n (x :: s)) "") as [|_];
        [contradiction|].
      unfold normal_form. rewrite join_snoc by assumption.
      now rewrite !append_assoc.
Qed.

End NormFacts.

(** ** What a caller can rely on *)

Section Shape.
Import Str StrFacts posixpath PathFacts NormFacts.
Context {World : Type} `{Process World}.

(** What [abspath] leaves of the path two levels up is in normal form. *)
Lemma get_html_theme_path_normal (file cwd : string) (w : World) :
  getcwd w = Some cwd -> isabs cwd = true ->
  exists n names,
    (n = 1 \/ n = 2) /\ names_only names /\
    conan.get_html_theme_path (Some file) w = (py.Ok [normal_form n names], w).
Proof.
  intros Hcwd Habs. rewrite (get_html_theme_path_run file cwd) by now right.
  unfold abspath_from.
  destruct (normpath_is_normal (full cwd (dirname (dirname file))))
    as (n & names & Hn & Hnames & E).
  - now apply DiskFacts.full_isabs.
  - exists n, names. unfold full in E. now rewrite E.
Qed.

(** X1. Under an absolute working directory the returned path is in normal
    form: one or two leading separators, then names joined by single
    separators, with no empty component, [.] or [..] among them. *)
Theorem get_html_theme_path_normal_form (file cwd : string) (w : World) :
  getcwd w = Some cwd -> isabs cwd = true ->
  exists n names,
    (n = 1 \/ n = 2) /\ names_only names /\
    conan.get_html_theme_path (Some file) w = (py.Ok [normal_form n names], w).
Proof. apply get_html_theme_path_normal. Qed.

(** X2. The returned path is a fixed point of [os.path.abspath]: making it
    absolute once more, under whatever working directory, gives it back. *)
Theorem get_html_theme_path_abspath_fixed (file cwd p : string) (w w' : World) :
  getcwd w = Some cwd -> isabs cwd = true ->
  conan.get_html_theme_path (Some file) w = (py.Ok [p], w) ->
  os.abspath p w' = (py.Ok p, w').
Proof.
  intros Hcwd Habs Hrun.
  destruct (get_html_theme_path_normal file cwd w Hcwd Habs)
    as (n & names & Hn & Hnames & E).
  rewrite E in Hrun. injection Hrun as <-.
  rewrite (abspath_run _ "") by (left; now apply normal_form_isabs).
  rewrite abspath_from_isabs by now apply normal_form_isabs.
  now rewrite normpath_normal_form.
Qed.

(** X3. A [__file__] without any separator has no directory to take two
    levels of: the call answers with the normalised working directory. *)
Theorem get_html_theme_path_bare_file (file cwd : string) (w : World) :
  no_sep file = true -> getcwd w = Some cwd ->
  conan.get_html_theme_path (Some file) w
  = (py.Ok [normpath cwd], w).
Proof.
  intros Hfile Hcwd. rewrite (get_html_theme_path_run file cwd) by now right.
  do 3 f_equal. clear Hcwd.
  assert (Hd : dirname file = "").
  { unfold dirname. now rewrite (head_absent _ _ (no_sep_absent _ Hfile)). }
  rewrite Hd. change (dirname "") with "". unfold abspath_from.
  change (isabs "") with false. cbv iota.
  rewrite (join_relative _ "" eq_refl).
  destruct (String.eqb_spec cwd "") as [-> | Hne]; [reflexivity|].
  simpl orb. destruct (endswith cwd sep) eqn:Hend.
  - f_equal. clear. induction cwd; simpl; congruence.
  - apply (normpath_app_seps cwd 1).
    destruct (all_char cwd sepc) eqn:Hall; [|reflexivity].
    change sep with (one sepc) in Hend.
    now rewrite (endswith_all _ _ Hne Hall) in Hend.
Qed.

(** X4. Joining a directory name and a file name to a normalised absolute
    directory and asking for the theme path gives that directory back. *)
Theorem get_html_theme_path_round_trip (d a b : string) (w : World) :
  isabs d = true -> normpath d = d ->
  a <> "" -> no_sep a = true -> no_sep b = true ->
  conan.get_html_theme_path (Some (join (join d [a]) [b])) w = (py.Ok [d], w).
Proof.
  intros Habs Hnorm Ha Hsa Hsb.
  rewrite (get_html_theme_path_run _ "") by (left; now do 2 apply join_isabs).
  rewrite dirname_dirname_join by assumption.
  now rewrite abspath_from_isabs, Hnorm.
Qed.

(** X5. For an absolute [__file__] in normal form the call drops the last
    two names and keeps the leading separators; with fewer than two names
    to drop it stops at the root. *)
Theorem get_html_theme_path_drops_two_names (n : nat) (names : list string) (w : World) :
  n = 1 \/ n = 2 -> names_only names ->
  conan.get_html_theme_path (Some (normal_form n names)) w
  = (py.Ok [normal_form n (removelast (removelast names))], w).
Proof.
  intros Hn Hnames.
  rewrite (get_html_theme_path_run _ "") by (left; now apply normal_form_isabs).
  rewrite !dirname_normal_form by auto using names_only_removelast.
  rewrite abspath_from_isabs by now apply normal_form_isabs.
  now rewrite normpath_normal_form by auto using names_only_removelast.
Qed.

(** X6. The returned path ends in a separator only when it is the root,
    [/] or [//]. *)
Theorem get_html_theme_path_trailing_separator (file cwd p : string) (w : World) :
  getcwd w = Some cwd -> isabs cwd = true ->
  conan.get_html_theme_path (Some file) w = (py.Ok [p], w) ->
  endswith p sep = true -> p = "/" \/ p = "//".
Proof.
  intros Hcwd Habs Hrun Hend.
  destruct (get_html_theme_path_normal file cwd w Hcwd Habs)
    as (n & names & Hn & Hnames & E).
  rewrite E in Hrun. injection Hrun as <-.
  destruct names as [|c names].
  - destruct Hn as [-> | ->]; [now left | now right].
  - exfalso. unfold normal_form in Hend. change sep with (one sepc) in Hend at 3.
    rewrite endswith_app in Hend by (apply join_names_nonempty; [discriminate | assumption]).
    rewrite join_names_end in Hend; [discriminate | discriminate | assumption].
Qed.

End Shape.

(** ** Two levels up from the module's location *)

Module LocationFacts.
Import Str StrFacts posixpath PathFacts NormFacts.

Lemma append_empty_r (s : string) : s ++ "" = s.
Proof. induction s as [|a s IH]; simpl; congruence. Qed.

Lemma is_name_shape (c : string) :
  disk.is_name c = true -> c <> "" /\ no_sep c = true /\ isabs c = false.
Proof.
  intros Hc. destruct (is_name_inv _ Hc) as (He & _ & _ & Hsep).
  assert (Hns : no_sep c = true) by (unfold no_sep; now rewrite Hsep).
  split; [intros ->; discriminate|]. split; [exact Hns|].
  now apply isabs_no_sep.
Qed.

(** *** [join] with relative parts *)

Lemma join_relative_relative (y z : string) :
  isabs y = false -> isabs z = false -> isabs (join y [z]) = false.
Proof.
  intros Hy Hz. rewrite (join_relative _ _ Hz).
  destruct (String.eqb_spec y "") as [-> | Hne]; [exact Hz|]. simpl orb.
  destruct (endswith y sep);
    unfold isabs; change sep with (one sepc);
    now rewrite (startswith_app y _ sepc Hne).
Qed.

Lemma join_absolute (a b : string) : isabs b = true -> join a [b] = b.
Proof.
  intros Hb. unfold join, join_step. simpl. unfold isabs in Hb. now rewrite Hb.
Qed.

(** Joining a relative part last may be done first. *)
Lemma join_assoc (x y z : string) :
  isabs z = false -> join x [join y [z]] = join (join x [y]) [z].
Proof.
  intros Hz. destruct (isabs y) eqn:Hy.
  - pose proof (join_isabs y z Hy) as Hyz.
    now rewrite (join_absolute x _ Hyz), (join_absolute x _ Hy).
  - pose proof (join_relative_relative y z Hy Hz) as Hyz.
    rewrite (join_relative x _ Hyz), (join_relative x _ Hy).
    destruct (String.eqb_spec y "") as [-> | Hne].
    + assert (E : join "" [z] = z)
        by (rewrite (join_relative _ _ Hz); reflexivity).
      rewrite E.
      destruct (String.eqb_spec x "") as [-> | Hx];
        [change (z = join "" [z]); now rewrite E|].
      simpl orb. destruct (endswith x sep) eqn:He.
      * rewrite append_empty_r, (join_relative _ _ Hz), He.
        now destruct (String.eqb_spec x ""); [contradiction|].
      * change (sep ++ "") with (one sepc).
        assert (He' : endswith (x ++ one sepc) sep = true).
        { change sep with (one sepc). rewrite endswith_app by discriminate.
          reflexivity. }
        rewrite (join_relative _ _ Hz), He', orb_true_r.
        now rewrite append_assoc.
    + rewrite (join_relative y _ Hz).
      destruct (String.eqb_spec y ""); [contradiction|]. simpl orb.
      assert (Hend : forall X, endswith (X ++ y) sep = endswith y sep)
        by (intros X; change sep with (one sepc); now apply endswith_app).
      assert (Hnon : forall X, (X ++ y =? "") = false).
      { intros X. apply String.eqb_neq. destruct X; simpl; [assumption | discriminate]. }
      destruct ((x =? "") || endswith x sep).
      * rewrite (join_relative _ _ Hz), Hend, Hnon. simpl orb.
        destruct (endswith y sep); now rewrite !append_assoc.
      * rewrite <- (append_assoc x sep y).
        rewrite (join_relative _ _ Hz), Hend, Hnon. simpl orb.
        destruct (endswith y sep); now rewrite !append_assoc.
Qed.

(** A relative part joined to a path is joined to what the path stands for. *)
Lemma full_join (cwd d a : string) :
  isabs a = false -> full cwd (join d [a]) = join (full cwd d) [a].
Proof.
  intros Ha. unfold full. destruct (isabs d) eqn:Hd.
  - now rewrite (join_isabs d a Hd).
  - rewrite (join_relative_relative d a Hd Ha). now apply join_assoc.
Qed.

(** *** [normpath] of a path with one more name *)

Lemma initial_slashes_app (s t : string) :
  all_char s sepc = false -> initial_slashes (s ++ t) = initial_slashes s.
Proof.
  intros Hs. unfold initial_slashes.
  rewrite (startswith_app_mul s t sepc 1 Hs
           : startswith (s ++ t) sep = startswith s sep).
  rewrite (startswith_app_mul s t sepc 2 Hs
           : startswith (s ++ t) (mul sep 2) = startswith s (mul sep 2)).
  rewrite (startswith_app_mul s t sepc 3 Hs
           : startswith (s ++ t) (mul sep 3) = startswith s (mul sep 3)).
  reflexivity.
Qed.

Lemma initial_slashes_three (r : string) :
  initial_slashes (String sepc (String sepc (String sepc r))) = 1.
Proof.
  unfold initial_slashes.
  rewrite (startswith_cons _ sepc
           : startswith (String sepc (String sepc (String sepc r))) sep = true).
  rewrite (eq_trans (startswith_cons_cons sepc _ (mul sep 2))
             (eq_trans (startswith_cons_cons sepc _ sep) (startswith_cons r sepc))
           : startswith (String sepc (String sepc (String sepc r))) (mul sep 3) = true).
  now rewrite andb_false_r.
Qed.

Lemma all_char_inv (s : string) (c : ascii) :
  all_char s c = true -> s = mul (one c) (String.length s).
Proof. intros Hs. apply String.eqb_eq. now rewrite eqb_mul_length. Qed.

Lemma initial_slashes_join_name (p c : string) :
  isabs p = true -> disk.is_name c = true ->
  initial_slashes (join p [c]) = initial_slashes p.
Proof.
  intros Hp Hc. destruct (is_name_shape _ Hc) as (Hne & Hns & Hrel).
  pose proof (isabs_nonempty _ Hp) as Hpne.
  rewrite (join_relative _ _ Hrel).
  destruct (String.eqb_spec p ""); [contradiction|]. simpl orb.
  destruct (all_char p sepc) eqn:Hall.
  - assert (Hend : endswith p sep = true)
      by now apply (endswith_all p sepc).
    rewrite Hend.
    destruct c as [|a c]; [contradiction|].
    assert (Ha : startswith (String a c) sep = false) by exact Hrel.
    rewrite (all_char_inv _ _ Hall).
    destruct (String.length p) as [|[|[|k]]] eqn:Ek.
    + destruct p; [contradiction | discriminate].
    + now rewrite (initial_slashes_one _ Ha : initial_slashes
                     (mul (one sepc) 1 ++ String a c) = 1).
    + now rewrite (initial_slashes_two _ Ha : initial_slashes
                     (mul (one sepc) 2 ++ String a c) = 2).
    + change (mul (one sepc) (S (S (S k))))
        with (String sepc (String sepc (String sepc (mul (one sepc) k)))).
      change (String sepc (String sepc (String sepc (mul (one sepc) k))) ++ String a c)
        with (String sepc (String sepc (String sepc (mul (one sepc) k ++ String a c)))).
      now rewrite !initial_slashes_three.
  - destruct (endswith p sep); now apply initial_slashes_app.
Qed.

Lemma names_join_name (m : nat) (p c : string) :
  p <> "" -> disk.is_name c = true ->
  fold_left (normpath_step m) (split (join p [c]) sepc) []
  = (fold_left (normpath_step m) (split p sepc) [] ++ [c])%list.
Proof.
  intros Hpne Hc. destruct (is_name_shape _ Hc) as (Hne & Hns & Hrel).
  pose proof (no_sep_absent _ Hns) as Hsep.
  rewrite (join_relative _ _ Hrel).
  destruct (String.eqb_spec p ""); [contradiction|]. simpl orb.
  destruct (endswith p sep) eqn:Hend.
  - destruct (endswith_inv p sepc Hend) as [x ->].
    rewrite append_assoc. change (one sepc ++ c) with (String sepc c).
    rewrite (split_app_sep x "" sepc : split (x ++ one sepc) sepc = _).
    rewrite split_app_sep, (split_absent _ _ Hsep), !fold_left_app.
    simpl. now apply normpath_step_name.
  - change (p ++ sep ++ c) with (p ++ String sepc c).
    rewrite split_app_sep, (split_absent _ _ Hsep), fold_left_app.
    simpl. now apply normpath_step_name.
Qed.

(** Making [__file__] absolute and going up twice gives what making its
    directory's directory absolute gives, when its last two components are
    names. *)
Lemma two_levels_up_join (cwd0 d a b : string) :
  isabs d = true \/ isabs cwd0 = true ->
  disk.is_name a = true -> disk.is_name b = true ->
  two_levels_up cwd0 (join (join d [a]) [b]) = abspath_from cwd0 d.
Proof.
  intros Habs Ha Hb.
  destruct (is_name_shape _ Ha) as (_ & _ & Hra).
  destruct (is_name_shape _ Hb) as (_ & _ & Hrb).
  unfold two_levels_up, abspath_from. fold (full cwd0 d).
  fold (full cwd0 (join (join d [a]) [b])).
  rewrite (full_join _ _ _ Hrb), (full_join _ _ _ Hra).
  set (p := full cwd0 d).
  assert (Hp : isabs p = true).
  { subst p. unfold full. destruct (isabs d) eqn:Hd; [exact Hd|].
    destruct Habs as [|Hc]; [discriminate | now apply join_isabs]. }
  pose proof (join_isabs p a Hp) as Hpa.
  pose proof (join_isabs (join p [a]) b Hpa) as Hpab.
  destruct (DiskFacts.normpath_absolute_form _ Hpab) as [_ ->].
  destruct (DiskFacts.normpath_absolute_form _ Hp) as [Hn ->].
  rewrite !initial_slashes_join_name by assumption.
  rewrite !names_join_name by (assumption || now apply isabs_nonempty).
  set (n := initial_slashes p) in *.
  set (s := fold_left (normpath_step n) (split p sepc) []).
  assert (Hs : names_only s).
  { subst s. apply fold_normpath_names; [| apply split_no_sep | constructor].
    destruct Hn as [E | E]; rewrite E; discriminate. }
  assert (Hsa : names_only (s ++ [a])).
  { unfold names_only in *. apply Forall_app. split; [assumption|].
    now constructor. }
  assert (Hsab : names_only ((s ++ [a]) ++ [b])).
  { unfold names_only in *. apply Forall_app. split; [assumption|].
    now constructor. }
  change (mul sep n ++ Str.join sep ((s ++ [a]) ++ [b]))
    with (normal_form n ((s ++ [a]) ++ [b])).
  rewrite (dirname_normal_form _ _ Hn Hsab), removelast_last.
  rewrite (dirname_normal_form _ _ Hn Hsa), removelast_last.
  reflexivity.
Qed.

End LocationFacts.

Section Location.
Import Str StrFacts posixpath PathFacts NormFacts LocationFacts.
Context {World : Type} `{Process World}.

(** C1, amended. When the last two components of [__file__] are names,
    that is [__file__ = join(join(d, a), b)] with a package directory [a]
    and a file [b] that are neither empty nor [.] nor [..] and hold no
    separator, and [d] is absolute or the working directory is the absolute
    one the module was loaded under, the call returns the list whose sole
    element is the absolute path two directory levels up from the module's
    location: the parent of the directory that contains the module, which
    is [d] made absolute and normalised. *)
Theorem get_html_theme_path_two_levels_up (cwd0 d a b : string) (w : World) :
  disk.is_name a = true -> disk.is_name b = true ->
  isabs d = true \/ (getcwd w = Some cwd0 /\ isabs cwd0 = true) ->
  conan.get_html_theme_path (Some (join (join d [a]) [b])) w
  = (py.Ok [two_levels_up cwd0 (join (join d [a]) [b])], w) /\
  two_levels_up cwd0 (join (join d [a]) [b]) = abspath_from cwd0 d /\
  isabs (two_levels_up cwd0 (join (join d [a]) [b])) = true.
Proof.
  intros Ha Hb Hloc.
  destruct (is_name_shape _ Ha) as (Hane & Hsa & _).
  destruct (is_name_shape _ Hb) as (_ & Hsb & _).
  assert (Habs : isabs d = true \/ isabs cwd0 = true)
    by (destruct Hloc as [? | [_ ?]]; auto).
  pose proof (two_levels_up_join cwd0 d a b Habs Ha Hb) as Hup.
  rewrite Hup. split; [|split].
  - rewrite (get_html_theme_path_run _ cwd0).
    + now rewrite dirname_dirname_join.
    + destruct Hloc as [Hd | [Hcwd _]]; [left | now right].
      now do 2 apply join_isabs.
  - reflexivity.
  - now apply abspath_from_absolute.
Qed.

End Location.

Lemma get_html_theme_path_two_levels_up_witness :
  conan.get_html_theme_path
    (Some (posixpath.join (posixpath.join "src/./_themes/" ["conan"]) ["__init__.py"]))
    (at_cwd "/home//docs")
  = (py.Ok
       [two_levels_up "/home//docs"
          (posixpath.join (posixpath.join "src/./_themes/" ["conan"]) ["__init__.py"])],
     at_cwd "/home//docs") /\
  two_levels_up "/home//docs"
    (posixpath.join (posixpath.join "src/./_themes/" ["conan"]) ["__init__.py"])
  = abspath_from "/home//docs" "src/./_themes/" /\
  posixpath.isabs
    (two_levels_up "/home//docs"
       (posixpath.join (posixpath.join "src/./_themes/" ["conan"]) ["__init__.py"]))
  = true.
Proof.
  apply (get_html_theme_path_two_levels_up "/home//docs" "src/./_themes/" "conan"
           "__init__.py" (at_cwd "/home//docs")).
  - reflexivity.
  - reflexivity.
  - right. split; reflexivity.
Defined.

(** C1 as stated fails: loaded and called under [/x/y/_themes/conan] with
    the bare [__file__ = __init__.py], the module lies in that directory,
    whose parent is [/x/y/_themes]; the call returns the directory itself. *)
Lemma get_html_theme_path_one_level_up :
  ~ (forall (cwd0 file : string) (w : proc),
       getcwd w = Some cwd0 -> posixpath.isabs cwd0 = true ->
       conan.get_html_theme_path (Some file) w
       = (py.Ok [two_levels_up cwd0 file], w)).
Proof.
  intros Hup.
  specialize (Hup "/x/y/_themes/conan" "__init__.py" (at_cwd "/x/y/_themes/conan")
                eq_refl eq_refl).
  vm_compute in Hup. discriminate.
Qed.

(** ** A relative [__file__], name by name *)

Module RelativeFacts.
Import Str StrFacts posixpath PathFacts NormFacts.

Lemma join_app (s1 s2 : list string) :
  s1 <> [] -> s2 <> [] ->
  Str.join sep (s1 ++ s2) = Str.join sep s1 ++ sep ++ Str.join sep s2.
Proof.
  intros H1 H2. induction s1 as [|x s1 IH]; [contradiction|].
  destruct s1 as [|y s1].
  - destruct s2 as [|z s2]; [contradiction | reflexivity].
  - change (Str.join sep ((x :: y :: s1) ++ s2))
      with (x ++ sep ++ Str.join sep ((y :: s1) ++ s2)).
    rewrite IH by discriminate.
    change (Str.join sep (x :: y :: s1)) with (x ++ sep ++ Str.join sep (y :: s1)).
    now rewrite !append_assoc.
Qed.

(** [dirname] takes the last name off a relative path of names. *)
Lemma dirname_join_names (s : list string) (c : string) :
  names_only (s ++ [c]) -> dirname (Str.join sep (s ++ [c])) = Str.join sep s.
Proof.
  intros Hs. unfold names_only in Hs. apply Forall_app in Hs as [Hs Hc].
  inversion Hc as [|? ? Hc' _]; subst.
  destruct (is_name_inv _ Hc') as (_ & _ & _ & Hsep).
  destruct s as [|x s].
  - simpl. unfold dirname. now rewrite (head_absent _ _ Hsep).
  - assert (Hb : no_sep c = true) by (unfold no_sep; now rewrite Hsep).
    assert (Hend : endswith (Str.join sep (x :: s)) sep = false)
      by (apply join_names_end; [discriminate | assumption]).
    assert (Hp : Str.join sep (x :: s) <> "")
      by (apply join_names_nonempty; [discriminate | assumption]).
    transitivity (dirname (join (Str.join sep (x :: s)) [c]));
      [|now apply dirname_join_file].
    f_equal. rewrite (join_relative _ _ (isabs_no_sep _ Hb)), Hend.
    destruct (String.eqb_spec (Str.join sep (x :: s)) "") as [|_]; [contradiction|].
    now apply join_snoc.
Qed.

(** A relative path of names, joined to a working directory in normal
    form, normalises to the names of both. *)
Lemma abspath_from_names (n : nat) (cs ds : list string) :
  n = 1 \/ n = 2 -> names_only cs -> names_only ds ->
  abspath_from (normal_form n cs) (Str.join sep ds) = normal_form n (cs ++ ds).
Proof.
  intros Hn Hcs Hds. unfold abspath_from.
  pose proof (join_names_relative _ Hds) as Hrel. fold (isabs (Str.join sep ds)) in Hrel.
  rewrite Hrel, (join_relative _ _ Hrel).
  pose proof (isabs_nonempty _ (normal_form_isabs n cs Hn)) as Hne.
  destruct (String.eqb_spec (normal_form n cs) "") as [|_]; [contradiction|].
  simpl orb.
  destruct cs as [|c cs].
  - assert (Hend : endswith (normal_form n []) sep = true)
      by (destruct Hn as [-> | ->]; reflexivity).
    rewrite Hend. simpl app.
    replace (normal_form n [] ++ Str.join sep ds) with (normal_form n ds)
      by (destruct Hn as [-> | ->]; reflexivity).
    now apply normpath_normal_form.
  - assert (Hend : endswith (normal_form n (c :: cs)) sep = false).
    { unfold normal_form. change sep with (one sepc) at 3.
      rewrite endswith_app by (apply join_names_nonempty; [discriminate | assumption]).
      apply join_names_end; [discriminate | assumption]. }
    rewrite Hend. destruct ds as [|d ds].
    + rewrite app_nil_r. change (sep ++ Str.join sep []) with (mul sep 1).
      rewrite normpath_app_seps; [now apply normpath_normal_form|].
      destruct (all_char (normal_form n (c :: cs)) sepc) eqn:Hall; [|reflexivity].
      change sep with (one sepc) in Hend.
      now rewrite (endswith_all _ _ Hne Hall) in Hend.
    + replace (normal_form n (c :: cs) ++ sep ++ Str.join sep (d :: ds))
        with (normal_form n ((c :: cs) ++ d :: ds)).
      * apply normpath_normal_form; [assumption|].
        unfold names_only in *. apply Forall_app. now split.
      * unfold normal_form. rewrite join_app by discriminate.
        now rewrite !append_assoc.
Qed.

End RelativeFacts.

Section Relative.
Import Str StrFacts posixpath PathFacts NormFacts RelativeFacts.
Context {World : Type} `{Process World}.

(** X7. With a relative [__file__] made of the names [ds], then the package
    directory [a] and the file [b], and a working directory in normal form
    with names [cs], the call returns the path of [cs] followed by [ds]. *)
Theorem get_html_theme_path_relative_names
    (n : nat) (cs ds : list string) (a b : string) (w : World) :
  n = 1 \/ n = 2 -> names_only cs -> names_only (ds ++ [a; b]) ->
  getcwd w = Some (normal_form n cs) ->
  conan.get_html_theme_path (Some (Str.join sep (ds ++ [a; b]))) w
  = (py.Ok [normal_form n (cs ++ ds)], w).
Proof.
  intros Hn Hcs Hfile Hcwd.
  rewrite (get_html_theme_path_run _ (normal_form n cs)) by now right.
  replace (ds ++ [a; b])%list with ((ds ++ [a]) ++ [b])%list in *
    by (rewrite <- List.app_assoc; reflexivity).
  rewrite (dirname_join_names _ _ Hfile).
  unfold names_only in Hfile. apply Forall_app in Hfile as [Hda _].
  rewrite (dirname_join_names _ _ Hda).
  apply Forall_app in Hda as [Hds _].
  now rewrite abspath_from_names.
Qed.

End Relative.

(** ** The package directory below the returned path *)

Module ThemeDirFacts.
Import Str StrFacts posixpath PathFacts disk DiskFacts.

Section Disk.
Variable root : node.

(** The components of [dirname] of a path that ends in the file name [b]. *)
Lemma dirname_split_file (x b : string) :
  has_char b sepc = false ->
  exists k,
    (split (dirname (x ++ String sepc b)) sepc ++ repeat "" k
     = split x sepc ++ [""])%list.
Proof.
  intros Hb.
  assert (Hhead : split (x ++ one sepc) sepc = (split x sepc ++ [""])%list)
    by apply split_app_sep.
  unfold dirname. rewrite (head_last _ _ _ Hb).
  change sep with (one sepc). rewrite eqb_mul_length.
  destruct (negb (x ++ one sepc =? empty) && negb (all_char (x ++ one sepc) sepc)).
  - destruct (rstrip_decomp (x ++ one sepc) sepc) as [k Ek]. exists k.
    now rewrite <- split_app_mul, <- Ek.
  - exists 0. rewrite Hhead. apply app_nil_r.
Qed.

(** Resolving a path is resolving its [dirname] and then taking the step
    of its last component. *)
Lemma walk_dirname_last (f b : string) (st s : list string) :
  has_char b sepc = false ->
  f = b \/ (exists x, f = x ++ String sepc b) ->
  walk root (split f sepc) st = Some s ->
  exists s', walk root (split (dirname f) sepc) st = Some s' /\
             walk_step root s' b = Some s.
Proof.
  intros Hb [-> | [x ->]] Hw.
  - rewrite (split_absent _ _ Hb) in Hw. simpl in Hw.
    assert (Hd : dirname b = "")
      by (unfold dirname; now rewrite (head_absent _ _ Hb)).
    rewrite Hd. exists st. simpl. rewrite walk_step_empty.
    destruct (walk_step root st b) as [s0|] eqn:Es; [|discriminate].
    injection Hw as ->. split; [|reflexivity].
    unfold walk_step in Es. now destruct (is_dir root st).
  - rewrite split_app_sep, (split_absent _ _ Hb), walk_app in Hw.
    destruct (walk root (split x sepc) st) as [s'|] eqn:Ex; [|discriminate].
    simpl in Hw.
    destruct (walk_step root s' b) as [s0|] eqn:Es; [|discriminate].
    injection Hw as ->. exists s'. split; [|exact Es].
    assert (Hdir : is_dir root s' = true)
      by (unfold walk_step in Es; now destruct (is_dir root s')).
    destruct (dirname_split_file x b Hb) as [k Hk].
    assert (Hw' : walk root (split x sepc ++ [""]) st = Some s')
      by (rewrite walk_app, Ex; simpl; now rewrite walk_step_empty, Hdir).
    rewrite <- Hk, walk_app in Hw'.
    destruct (walk root (split (dirname (x ++ String sepc b)) sepc) st) as [s2|];
      [|discriminate].
    apply walk_empties in Hw'. now subst s2.
Qed.

(** A name joined to a directory is that name, or ends in a separator and
    that name. *)
Lemma join_name_decomp (d a : string) :
  no_sep a = true ->
  join d [a] = a \/ exists x, join d [a] = x ++ String sepc a.
Proof.
  intros Ha. rewrite (join_relative _ _ (isabs_no_sep _ Ha)).
  destruct (String.eqb_spec d "") as [-> | Hd]; [now left | right].
  simpl orb. destruct (endswith d sep) eqn:He.
  - destruct (endswith_inv d sepc He) as [x ->]. exists x.
    now rewrite append_assoc.
  - now exists d.
Qed.

(** The same from a working directory. *)
Lemma resolve_dirname_last (cwd f b : string) (s : list string) :
  isabs cwd = true -> has_char b sepc = false ->
  f = b \/ (exists x, f = x ++ String sepc b) ->
  resolve root (full cwd f) = Some s ->
  exists s', resolve root (full cwd (dirname f)) = Some s' /\
             walk_step root s' b = Some s.
Proof.
  intros Hc Hb Hf. unfold full. destruct (isabs f) eqn:Habs.
  - rewrite (dirname_isabs _ Habs). now apply walk_dirname_last.
  - rewrite (dirname_relative _ Habs).
    destruct (join_cwd_form cwd Hc) as [c0 Hj].
    rewrite !Hj by auto using dirname_relative.
    unfold resolve. rewrite !split_app_sep, !walk_app.
    destruct (walk root (split c0 sepc) []); [|discriminate].
    now apply walk_dirname_last.
Qed.

(** Resolving a name joined to an absolute path is one step from where the
    path resolves to. *)
Lemma resolve_join_name (p a : string) (s : list string) :
  isabs p = true -> a <> "" -> no_sep a = true ->
  resolve root p = Some s ->
  resolve root (join p [a]) = walk_step root s a.
Proof.
  intros Hp Hne Ha Hr. pose proof (no_sep_absent _ Ha) as Hsep.
  pose proof (isabs_nonempty _ Hp) as Hpne.
  rewrite (join_relative _ _ (isabs_no_sep _ Ha)).
  destruct (String.eqb_spec p "") as [|_]; [contradiction|]. simpl orb.
  unfold resolve in *. destruct (endswith p sep) eqn:He.
  - destruct (endswith_inv p sepc He) as [x ->].
    rewrite append_assoc. change (one sepc ++ a) with (String sepc a).
    rewrite split_app_sep, (split_absent _ _ Hsep), walk_app.
    rewrite (split_app_sep x "" sepc : split (x ++ one sepc) sepc = _), walk_app in Hr.
    destruct (walk root (split x sepc) []) as [s'|]; [|discriminate].
    simpl in Hr. rewrite walk_step_empty in Hr.
    destruct (is_dir root s'); [|discriminate]. injection Hr as ->.
    simpl. now destruct (walk_step root s a).
  - change (p ++ sep ++ a) with (p ++ String sepc a).
    rewrite split_app_sep, (split_absent _ _ Hsep), walk_app, Hr.
    simpl. now destruct (walk_step root s a).
Qed.

(** If the module file exists, the package directory is found below what
    [abspath(dirname(dirname(__file__)))] gives, where it was. *)
Lemma package_below_theme_path (cwd d a b : string) :
  isabs cwd = true -> a <> "" -> no_sep a = true -> no_sep b = true ->
  exists_on_disk root cwd (join (join d [a]) [b]) = true ->
  let p := abspath_from cwd (dirname (dirname (join (join d [a]) [b]))) in
  lookup root cwd (join p [a]) = lookup root cwd (join d [a]) /\
  is_directory root cwd (join p [a]) = true.
Proof.
  intros Hc Hane Ha Hb Hex p.
  destruct (join_name_shape d a Hane Ha) as [Hpa Hend].
  assert (Hdir1 : dirname (join (join d [a]) [b]) = join d [a])
    by now apply dirname_join_file.
  unfold exists_on_disk, lookup in Hex.
  destruct (join (join d [a]) [b] =? ""); [discriminate|].
  fold (full cwd (join (join d [a]) [b])) in Hex.
  destruct (resolve root (full cwd (join (join d [a]) [b]))) as [sf|] eqn:Hrf;
    [clear Hex | discriminate].
  destruct (resolve_dirname root _ _ _ Hc Hrf) as (s1 & Hr1 & Hd1).
  rewrite Hdir1 in Hr1.
  destruct (resolve_dirname_last cwd (join d [a]) a s1 Hc (no_sep_absent _ Ha)
              (join_name_decomp d a Ha) Hr1) as (s2 & Hr2 & Hstep).
  pose proof (full_isabs cwd (dirname (join d [a])) Hc) as Habs.
  apply (resolve_normpath root _ _ Habs) in Hr2.
  change (resolve root (abspath_from cwd (dirname (join d [a]))) = Some s2) in Hr2.
  assert (Hp : isabs p = true)
    by (apply abspath_from_absolute; now right).
  subst p. rewrite Hdir1 in *.
  set (p := abspath_from cwd (dirname (join d [a]))) in *.
  pose proof (resolve_join_name p a s2 Hp Hane Ha Hr2) as Hj.
  rewrite Hstep in Hj.
  assert (Hl : lookup root cwd (join p [a]) = Some s1).
  { unfold lookup. rewrite (join_isabs p a Hp).
    destruct (String.eqb_spec (join p [a]) "") as [E|_]; [|exact Hj].
    pose proof (join_isabs p a Hp) as Hi. rewrite E in Hi. discriminate. }
  split.
  - rewrite Hl. unfold lookup.
    destruct (String.eqb_spec (join d [a]) "") as [|_]; [contradiction|].
    symmetry. exact Hr1.
  - unfold is_directory. now rewrite Hl.
Qed.

End Disk.
End ThemeDirFacts.

Section ThemeDir.
Import Str StrFacts posixpath PathFacts.
Context {World : Type} `{Process World}.

(** X8. On a disk without links, if the module file [b] of the package
    directory [a] in [d] exists, then joining [a] to the returned path names
    an existing directory, the same one as [join(d, a)]: the theme is found
    under its name below the path the call returns. *)
Theorem get_html_theme_path_holds_package
    (root : disk.node) (cwd d a b : string) (w : World) :
  getcwd w = Some cwd -> isabs cwd = true ->
  a <> "" -> no_sep a = true -> no_sep b = true ->
  disk.exists_on_disk root cwd (join (join d [a]) [b]) = true ->
  exists p,
    conan.get_html_theme_path (Some (join (join d [a]) [b])) w = (py.Ok [p], w) /\
    disk.lookup root cwd (join p [a]) = disk.lookup root cwd (join d [a]) /\
    disk.is_directory root cwd (join p [a]) = true.
Proof.
  intros Hcwd Habs Hane Ha Hb Hex. eexists.
  split; [apply (get_html_theme_path_run _ cwd); now right|].
  now apply ThemeDirFacts.package_below_theme_path.
Qed.

End ThemeDir.

(** ** The further statements at concrete inputs *)

Lemma get_html_theme_path_normal_form_witness :
  exists n names,
    (n = 1 \/ n = 2) /\ names_only names /\
    conan.get_html_theme_path (Some "conan/../conan/__init__.py")
      (at_cwd "/x//y/_themes/")
    = (py.Ok [normal_form n names], at_cwd "/x//y/_themes/").
Proof.
  apply (get_html_theme_path_normal_form "conan/../conan/__init__.py"
           "/x//y/_themes/" (at_cwd "/x//y/_themes/")).
  - reflexivity.
  - reflexivity.
Defined.

Lemma get_html_theme_path_abspath_fixed_witness :
  os.abspath "/x/y/_themes" (at_cwd "/elsewhere")
  = (py.Ok "/x/y/_themes", at_cwd "/elsewhere").
Proof.
  apply (get_html_theme_path_abspath_fixed "_themes/conan/__init__.py" "/x/y"
           "/x/y/_themes" (at_cwd "/x/y") (at_cwd "/elsewhere")).
  - reflexivity.
  - reflexivity.
  - reflexivity.
Defined.

Lemma get_html_theme_path_bare_file_witness :
  conan.get_html_theme_path (Some "__init__.py") (at_cwd "/x/y//_themes/conan/")
  = (py.Ok [posixpath.normpath "/x/y//_themes/conan/"],
     at_cwd "/x/y//_themes/conan/").
Proof.
  exact (get_html_theme_path_bare_file "__init__.py" "/x/y//_themes/conan/"
           (at_cwd "/x/y//_themes/conan/") eq_refl eq_refl).
Defined.

Lemma get_html_theme_path_round_trip_witness :
  conan.get_html_theme_path
    (Some (posixpath.join (posixpath.join "/srv/docs/_themes" ["conan"])
             ["__init__.pyc"]))
    (at_cwd "/tmp")
  = (py.Ok ["/srv/docs/_themes"], at_cwd "/tmp").
Proof.
  apply (get_html_theme_path_round_trip "/srv/docs/_themes" "conan" "__init__.pyc"
           (at_cwd "/tmp")).
  - reflexivity.
  - reflexivity.
  - discriminate.
  - reflexivity.
  - reflexivity.
Defined.

Lemma get_html_theme_path_drops_two_names_witness :
  conan.get_html_theme_path (Some (normal_form 1 ["conan"])) (at_cwd "/tmp")
  = (py.Ok [normal_form 1 (removelast (removelast ["conan"]))], at_cwd "/tmp").
Proof.
  apply (get_html_theme_path_drops_two_names 1 ["conan"] (at_cwd "/tmp")).
  - left. reflexivity.
  - repeat constructor.
Defined.

Lemma get_html_theme_path_trailing_separator_witness :
  "/" = "/" \/ "/" = "//".
Proof.
  apply (get_html_theme_path_trailing_separator "/conan/__init__.py" "/tmp" "/"
           (at_cwd "/tmp")).
  - reflexivity.
  - reflexivity.
  - reflexivity.
  - reflexivity.
Defined.

Lemma get_html_theme_path_relative_names_witness :
  conan.get_html_theme_path
    (Some (Str.join posixpath.sep (["src"; "_themes"] ++ ["conan"; "__init__.py"])))
    (at_cwd "/home/docs")
  = (py.Ok [normal_form 1 (["home"; "docs"] ++ ["src"; "_themes"])],
     at_cwd "/home/docs").
Proof.
  apply (get_html_theme_path_relative_names 1 ["home"; "docs"] ["src"; "_themes"]
           "conan" "__init__.py" (at_cwd "/home/docs")).
  - left. reflexivity.
  - repeat constructor.
  - repeat constructor.
  - reflexivity.
Defined.

Lemma get_html_theme_path_holds_package_witness :
  exists p,
    conan.get_html_theme_path
      (Some (posixpath.join (posixpath.join "_themes" ["conan"]) ["__init__.py"]))
      (at_cwd "/x/y")
    = (py.Ok [p], at_cwd "/x/y") /\
    disk.lookup disk.installed "/x/y" (posixpath.join p ["conan"])
    = disk.lookup disk.installed "/x/y" (posixpath.join "_themes" ["conan"]) /\
    disk.is_directory disk.installed "/x/y" (posixpath.join p ["conan"]) = true.
Proof.
  apply (get_html_theme_path_holds_package disk.installed "/x/y" "_themes" "conan"
           "__init__.py" (at_cwd "/x/y")).
  - reflexivity.
  - reflexivity.
  - discriminate.
  - reflexivity.
  - reflexivity.
  - reflexivity.
Defined.
